(** * dagster._utils.backcompat: renamed parameters, deprecation and
      experimental warnings, and their scoped suppression.

    The development embeds [src/python_modules/dagster/dagster/_utils/backcompat.py]
    together with the part of Python's [warnings] machinery it drives:
    the filter list, [catch_warnings], [filterwarnings] and the decision
    procedure of [warn_explicit].  Python code runs in a state-and-exception
    monad over the process-wide warning state; an exception leaves the state
    as it was when it was raised, as in Python. *)

From Stdlib Require Import List String Ascii ZArith NArith Bool Lia DecimalString.
Import ListNotations.
Local Open Scope string_scope.

(* ================================================================== *)
(** ** Python values *)
(* ================================================================== *)

(** The data values that reach the functions of the module.  [PyNone] is the
    singleton [None]; the source tests it with [is not None]. *)
Inductive pyval : Type :=
| PyNone
| PyBool (b : bool)
| PyInt (z : Z)
| PyStr (s : string).

Definition is_none (v : pyval) : bool :=
  match v with PyNone => true | _ => false end.

(** [isinstance(obj, str)] *)
Definition isinstance_str (v : pyval) : bool :=
  match v with PyStr _ => true | _ => false end.

(** [bool(v)] *)
Definition truthy_val (v : pyval) : bool :=
  match v with
  | PyNone => false
  | PyBool b => b
  | PyInt z => negb (Z.eqb z 0)
  | PyStr s => negb (String.eqb s EmptyString)
  end.

(** [str(v)], which is what [str.format] and f-strings substitute. *)
Definition py_str (v : pyval) : string :=
  match v with
  | PyNone => "None"
  | PyBool true => "True"
  | PyBool false => "False"
  | PyInt z => NilZero.string_of_int (Z.to_int z)
  | PyStr s => s
  end.

(** The double quote character, which occurs inside two of the module's
    messages. *)
Definition dquote : string := String (ascii_of_nat 34) EmptyString.

(** [sub in s] for strings. *)
Fixpoint prefixb (p s : string) : bool :=
  match p, s with
  | EmptyString, _ => true
  | String a p', String b s' => Ascii.eqb a b && prefixb p' s'
  | String _ _, EmptyString => false
  end.

Fixpoint containsb (sub s : string) : bool :=
  prefixb sub s ||
  match s with
  | EmptyString => false
  | String _ s' => containsb sub s'
  end.

(** Python's truth test of an [Optional[str]]: [None] and the empty string
    are both false. *)
Definition truthy_opt_str (t : option string) : bool :=
  match t with
  | None => false
  | Some s => negb (String.eqb s EmptyString)
  end.

(** [str(t)] for an [Optional[str]], as string concatenation and f-strings
    take it; the source reaches it only after the truth test. *)
Definition opt_str_text (t : option string) : string :=
  match t with None => "None" | Some s => s end.

(* ================================================================== *)
(** ** Warning categories and exceptions *)
(* ================================================================== *)

(** [ExperimentalWarning] is the class the module defines (line 86); the
    next four are built-in categories.  Each of them derives directly from
    [Warning].  [Derived name base] is a class defined elsewhere as
    [class name(base)]: the hierarchy is open, and a filter for a category
    catches its subclasses too. *)
Inductive category : Type :=
| Warning
| UserWarning
| DeprecationWarning
| FutureWarning
| ExperimentalWarning
| Derived (name : string) (base : category).

Fixpoint category_eqb (c1 c2 : category) : bool :=
  match c1, c2 with
  | Warning, Warning
  | UserWarning, UserWarning
  | DeprecationWarning, DeprecationWarning
  | FutureWarning, FutureWarning
  | ExperimentalWarning, ExperimentalWarning => true
  | Derived n1 b1, Derived n2 b2 => String.eqb n1 n2 && category_eqb b1 b2
  | _, _ => false
  end.

(** [issubclass(c, base)]: [c] is [base] or derives from it, directly or
    through its own base. *)
Fixpoint issubclass (c base : category) : bool :=
  category_eqb c base
  || match c with
     | Warning => false
     | Derived _ parent => issubclass parent base
     | _ => category_eqb base Warning
     end.

Inductive exn : Type :=
| CheckError (desc : string)
    (* raised by [check.failed(desc)] *)
| ParameterCheckError (param_name : string) (expected : string)
    (* raised by the [check.*_param] helpers; a subclass of CheckError *)
| WarningAsError (cat : category) (text : string)
    (* a warning instance raised by a filter whose action is "error" *)
| TypeError (msg : string)
| OverflowError (msg : string)
    (* an integer argument that does not fit the C type it is converted to *)
| OtherError (name : string) (msg : string).

Definition is_check_error (e : exn) : bool :=
  match e with
  | CheckError _ | ParameterCheckError _ _ => true
  | _ => false
  end.

Inductive outcome (A : Type) : Type :=
| Return (a : A)
| Raise (e : exn).
Arguments Return {A} a.
Arguments Raise {A} e.

Definition raised {A} (r : outcome A) : bool :=
  match r with Return _ => false | Raise _ => true end.

(* ================================================================== *)
(** ** The process-wide warning state *)
(* ================================================================== *)

Inductive action : Type :=
| ActDefault | ActError | ActIgnore | ActAlways | ActModule | ActOnce.

Definition action_eqb (a b : action) : bool :=
  match a, b with
  | ActDefault, ActDefault | ActError, ActError | ActIgnore, ActIgnore
  | ActAlways, ActAlways | ActModule, ActModule | ActOnce, ActOnce => true
  | _, _ => false
  end.

(** An entry of [warnings.filters]: the tuple
    [(action, message, category, module, lineno)].  [message] and [module]
    are compiled regular expressions or [None]; they are kept as the pattern
    text, which is what equality of compiled patterns compares. *)
Record filter : Type := mkFilter {
  f_action : action;
  f_message : option string;
  f_category : category;
  f_module : option string;
  f_lineno : N
}.

Definition opt_string_eqb (a b : option string) : bool :=
  match a, b with
  | None, None => true
  | Some x, Some y => String.eqb x y
  | _, _ => false
  end.

Definition filter_eqb (x y : filter) : bool :=
  action_eqb (f_action x) (f_action y)
  && opt_string_eqb (f_message x) (f_message y)
  && category_eqb (f_category x) (f_category y)
  && opt_string_eqb (f_module x) (f_module y)
  && N.eqb (f_lineno x) (f_lineno y).

(** The code location a warning is attributed to: the frame that
    [warnings.warn] reaches for its [stacklevel].  [fr_globals] identifies
    the globals dictionary that owns the [__warningregistry__]. *)
Record frame : Type := mkFrame {
  fr_globals : nat;
  fr_module : string;
  fr_filename : string;
  fr_lineno : N
}.

(** Keys of a [__warningregistry__]: the triples [(text, category, lineno)],
    and the pairs [(text, category)], which carry no line number. *)
Definition regkey : Type := (string * category * option N)%type.

Definition opt_lineno_eqb (a b : option N) : bool :=
  match a, b with
  | None, None => true
  | Some x, Some y => N.eqb x y
  | _, _ => false
  end.

Definition regkey_eqb (a b : regkey) : bool :=
  let '(t1, c1, l1) := a in
  let '(t2, c2, l2) := b in
  String.eqb t1 t2 && category_eqb c1 c2 && opt_lineno_eqb l1 l2.

Record registry : Type := mkRegistry {
  reg_version : nat;
  reg_keys : list regkey
}.

(** A warning that passed the filters and was handed to [showwarning]. *)
Record diagnostic : Type := mkDiagnostic {
  d_text : string;
  d_category : category;
  d_filename : string;
  d_lineno : N
}.

Record world : Type := mkWorld {
  filters : list filter;            (* warnings.filters *)
  filters_version : nat;            (* warnings._filters_version *)
  onceregistry : list (string * category);
    (* warnings.onceregistry: used for a warning that comes without a registry,
       which [warnings.warn] never sends *)
  registries : list (nat * registry);  (* the __warningregistry__ of each globals *)
  submitted : list (string * category);
    (* the calls of warnings.warn, oldest first: a trace, which Python does not keep *)
  shown : list diagnostic           (* what showwarning has received, oldest first *)
}.

Definition set_filters (fs : list filter) (w : world) : world :=
  mkWorld fs (filters_version w) (onceregistry w) (registries w) (submitted w) (shown w).

(** [warnings._filters_mutated()] *)
Definition filters_mutated (w : world) : world :=
  mkWorld (filters w) (S (filters_version w)) (onceregistry w) (registries w)
    (submitted w) (shown w).

Definition set_registries (r : list (nat * registry)) (w : world) : world :=
  mkWorld (filters w) (filters_version w) (onceregistry w) r (submitted w) (shown w).

Definition submit (text : string) (cat : category) (w : world) : world :=
  mkWorld (filters w) (filters_version w) (onceregistry w) (registries w)
    (submitted w ++ [(text, cat)]) (shown w).

Definition show (d : diagnostic) (w : world) : world :=
  mkWorld (filters w) (filters_version w) (onceregistry w) (registries w)
    (submitted w) (shown w ++ [d]).

(** The ExperimentalWarning diagnostics among those shown. *)
Definition experimental_shown (w : world) : list diagnostic :=
  List.filter (fun d => issubclass (d_category d) ExperimentalWarning) (shown w).

(* ================================================================== *)
(** ** The monad of Python computations *)
(* ================================================================== *)

Definition M (A : Type) : Type := world -> outcome A * world.

Definition ret {A} (a : A) : M A := fun w => (Return a, w).

Definition raise {A} (e : exn) : M A := fun w => (Raise e, w).

Definition bind {A B} (m : M A) (k : A -> M B) : M B :=
  fun w =>
    match m w with
    | (Return a, w') => k a w'
    | (Raise e, w') => (Raise e, w')
    end.

(** [try: m  except BaseException: h] *)
Definition try_except {A} (m : M A) (h : exn -> M A) : M A :=
  fun w =>
    match m w with
    | (Return a, w') => (Return a, w')
    | (Raise e, w') => h e w'
    end.

Declare Scope py_scope.
Delimit Scope py_scope with py.
Notation "x <- m ;; k" := (bind m (fun x => k))
  (at level 100, m at next level, right associativity) : py_scope.
Notation "m ;; k" := (bind m (fun _ => k))
  (at level 100, right associativity) : py_scope.
Local Open Scope py_scope.

(* ================================================================== *)
(** ** Callables handed to the module *)
(* ================================================================== *)

(** What a caller can pass where a callable is expected.  A function object
    (a [def] or a [lambda]) is always true in a boolean context; an instance
    of a class with [__call__] has the truth value its class gives it. *)
Inductive pyobj : Type :=
| Plain (v : pyval)
| Function (f : pyval -> M pyval)
| CallableObject (truth : bool) (f : pyval -> M pyval).

Definition obj_is_none (o : pyobj) : bool :=
  match o with Plain v => is_none v | _ => false end.

(** [callable(o)] *)
Definition callable (o : pyobj) : bool :=
  match o with Plain _ => false | _ => true end.

(** [bool(o)] *)
Definition truthy (o : pyobj) : bool :=
  match o with
  | Plain v => truthy_val v
  | Function _ => true
  | CallableObject t _ => t
  end.

(** [o(v)] *)
Definition call (o : pyobj) (v : pyval) : M pyval :=
  match o with
  | Plain _ => raise (TypeError "object is not callable")
  | Function f => f v
  | CallableObject _ f => f v
  end.

(* ================================================================== *)
(** ** dagster._check *)
(* ================================================================== *)

Module check.

(** Modelled from the spec: [dagster._check] is not among the sources.
    [str_param(obj, param_name)] is the validation of a name argument: it
    passes exactly the instances of [str], the empty string included, and
    fails with a check failure naming the parameter otherwise. *)
Definition str_param (obj : pyval) (param_name : string) : M pyval :=
  if isinstance_str obj then ret obj
  else raise (ParameterCheckError param_name "str").

(** Modelled from the spec: [opt_callable_param(obj, param_name)] of
    [dagster._check], not among the sources: the coercion argument is either
    absent ([None]) or callable; anything else is a check failure. *)
Definition opt_callable_param (obj : pyobj) (param_name : string) : M pyobj :=
  if obj_is_none obj || callable obj then ret obj
  else raise (ParameterCheckError param_name "callable").

(** Modelled from the spec: [failed(desc)] of [dagster._check], not among the
    sources: it never returns; it fails with the error that carries the
    description [desc]. *)
Definition failed {A} (desc : string) : M A :=
  raise (CheckError desc).

End check.

(* ================================================================== *)
(** ** normalize_renamed_param (lines 18-57) *)
(* ================================================================== *)

(** The text built by the [str.format] call of lines 50-52. *)
Definition conflict_message (old_arg new_arg : pyval) : string :=
  "Do not use deprecated " ++ dquote ++ py_str old_arg ++ dquote
  ++ " now that you are using " ++ dquote ++ py_str new_arg ++ dquote ++ ".".

Definition normalize_renamed_param
    (new_val new_arg old_val old_arg : pyval) (coerce_old_to_new : pyobj)
  : M pyval :=
  check.str_param new_arg "new_arg" ;;
  check.str_param old_arg "old_arg" ;;
  check.opt_callable_param coerce_old_to_new "coerce_old_to_new" ;;
  if negb (is_none new_val) && negb (is_none old_val) then
    check.failed (conflict_message old_arg new_arg)
  else if negb (is_none old_val) then
    if truthy coerce_old_to_new then call coerce_old_to_new old_val
    else ret old_val
  else
    ret new_val.

(* ================================================================== *)
(** ** Python's warnings module *)
(* ================================================================== *)

Module warnings.

(** The largest value of the C type [ssize_t] on a 64-bit build. *)
Definition PY_SSIZE_T_MAX : Z := 9223372036854775807.

Definition fits_ssize_t (z : Z) : bool :=
  Z.leb (- PY_SSIZE_T_MAX - 1) z && Z.leb z PY_SSIZE_T_MAX.

(** What the conversion of a Python int to [ssize_t] raises when it fails. *)
Definition overflow_error : exn :=
  OverflowError "Python int too large to convert to C ssize_t".

(** [warnings.defaultaction] *)
Definition defaultaction : action := ActDefault.

(** [list.remove(item)] that swallows the ValueError of a missing item: the
    first equal entry is dropped. *)
Fixpoint remove_first (item : filter) (fs : list filter) : list filter :=
  match fs with
  | [] => []
  | f :: fs' => if filter_eqb f item then fs' else f :: remove_first item fs'
  end.

(** [warnings._add_filter(item, append)] *)
Definition add_filter (item : filter) (append : bool) : M unit :=
  fun w =>
    let fs :=
      if append then
        if existsb (filter_eqb item) (filters w) then filters w
        else (filters w ++ [item])%list
      else item :: remove_first item (filters w) in
    (Return tt, filters_mutated (set_filters fs w)).

(** [warnings.filterwarnings(action, message, category, module, lineno,
    append)].  An empty [message] or [module] is stored as [None].  The
    argument checks of the function hold by typing: the action is one of the
    six actions, the category a Warning class, and [lineno] is not negative. *)
Definition filterwarnings (act : action) (message : string) (cat : category)
    (module : string) (lineno : N) (append : bool) : M unit :=
  let message' := if String.eqb message EmptyString then None else Some message in
  let module' := if String.eqb module EmptyString then None else Some module in
  add_filter (mkFilter act message' cat module' lineno) append.

(** [with warnings.catch_warnings(): block].  [__enter__] keeps the current
    filter list and installs a copy of it; [__exit__] puts the kept list
    back, whether the block returned or raised, and lets an exception
    through.  ([showwarning] is saved and restored likewise; nothing in this
    module replaces it.) *)
Definition catch_warnings {A} (block : M A) : M A :=
  fun w =>
    let saved := filters w in
    let w1 := filters_mutated (set_filters (filters w) w) in
    let (r, w2) := block w1 in
    (r, filters_mutated (set_filters saved w2)).

Fixpoint lookup_registry (rs : list (nat * registry)) (g : nat) : registry :=
  match rs with
  | [] => mkRegistry 0 []
  | (g', r) :: rs' => if Nat.eqb g g' then r else lookup_registry rs' g
  end.

Fixpoint store_registry (rs : list (nat * registry)) (g : nat) (r : registry)
  : list (nat * registry) :=
  match rs with
  | [] => [(g, r)]
  | (g', r') :: rs' =>
      if Nat.eqb g g' then (g, r) :: rs' else (g', r') :: store_registry rs' g r
  end.

Definition has_key (k : regkey) (r : registry) : bool :=
  existsb (regkey_eqb k) (reg_keys r).

Definition add_key (k : regkey) (r : registry) : registry :=
  mkRegistry (reg_version r) (k :: reg_keys r).

Section Engine.

(** The regular expression engine: [re_match ignore_case pattern text] tells
    whether [re.compile(pattern, flags).match(text)] succeeds.  Message
    patterns are compiled with [re.I], module patterns without. *)
Variable re_match : bool -> string -> string -> bool.

(** The test of the filter loop of [warn_explicit]. *)
Definition filter_matches (f : filter) (text : string) (cat : category)
    (module : string) (lineno : N) : bool :=
  match f_message f with None => true | Some p => re_match true p text end
  && issubclass cat (f_category f)
  && match f_module f with None => true | Some p => re_match false p module end
  && (N.eqb (f_lineno f) 0 || N.eqb lineno (f_lineno f)).

(** The first matching filter decides; without one, [defaultaction]. *)
Fixpoint search_filters (fs : list filter) (text : string) (cat : category)
    (module : string) (lineno : N) : action :=
  match fs with
  | [] => defaultaction
  | f :: fs' =>
      if filter_matches f text cat module lineno then f_action f
      else search_filters fs' text cat module lineno
  end.

(** [warnings.warn_explicit(message, category, filename, lineno, module,
    registry)] for a message given as text, as the interpreter's built-in
    implementation runs it.  The registry is emptied when its version is not
    the current one; a key already in it ends the call before the filters
    are looked at.  For the action "once" the mark [(text, category)] goes
    into the registry that was passed, not into [warnings.onceregistry]. *)
Definition warn_explicit (text : string) (cat : category) (fr : frame) : M unit :=
  fun w =>
    let g := fr_globals fr in
    let reg0 := lookup_registry (registries w) g in
    let reg :=
      if Nat.eqb (reg_version reg0) (filters_version w) then reg0
      else mkRegistry (filters_version w) [] in
    let store r w' := set_registries (store_registry (registries w') g r) w' in
    let key := (text, cat, Some (fr_lineno fr)) in
    let d := mkDiagnostic text cat (fr_filename fr) (fr_lineno fr) in
    if has_key key reg then (Return tt, store reg w)
    else
      match search_filters (filters w) text cat (fr_module fr) (fr_lineno fr) with
      | ActIgnore => (Return tt, store reg w)
      | ActError => (Raise (WarningAsError cat text), store reg w)
      | ActOnce =>
          let reg1 := add_key key reg in
          let oncekey := (text, cat, None) in
          if has_key oncekey reg1 then (Return tt, store reg1 w)
          else (Return tt, show d (store (add_key oncekey reg1) w))
      | ActAlways => (Return tt, show d (store reg w))
      | ActModule =>
          let reg1 := add_key key reg in
          let altkey := (text, cat, Some 0%N) in
          if has_key altkey reg1 then (Return tt, store reg1 w)
          else (Return tt, show d (store (add_key altkey reg1) w))
      | ActDefault => (Return tt, show d (store (add_key key reg) w))
      end.

(** [warnings.warn(message, category, stacklevel)].  The arguments are
    converted first: [stacklevel] becomes a C [ssize_t], and an integer
    outside that type ends the call with OverflowError whatever the filters
    are.  The interpreter's call stack is not part of the state: [caller]
    gives, for a stack level counted from the frame that calls [warn], the
    location that [warn] attributes the warning to.  The call is recorded in
    the trace in either case. *)
Definition warn (caller : Z -> frame) (message : string) (cat : category)
    (stacklevel : Z) : M unit :=
  fun w =>
    if fits_ssize_t stacklevel
    then warn_explicit message cat (caller stacklevel) (submit message cat w)
    else (Raise overflow_error, submit message cat w).

End Engine.

End warnings.

(* ================================================================== *)
(** ** The decorator collaborator (dagster._core.decorator_utils) *)
(* ================================================================== *)

(** A context manager written as a generator with one [yield], as
    [@contextmanager] makes it: the function that runs the managed block at
    the place of the [yield]. *)
Definition ContextManager : Type := forall A : Type, M A -> M A.

(** A decoratable target: a function or method, or a class with its
    methods. *)
Inductive Decoratable : Type :=
| DFunction (fn : list pyval -> M pyval)
| DClass (methods : list (string * (list pyval -> M pyval))).

(** [with cm(): return fn(args)] *)
Definition scoped_call (cm : ContextManager) (fn : list pyval -> M pyval)
  : list pyval -> M pyval :=
  fun args => cm pyval (fn args).

(** Modelled from the spec: [apply_context_manager_decorator] of
    [dagster._core.decorator_utils], not among the sources.  Given a
    callable, method or class it returns an equivalent entity where every
    invocation (for a class, every method's invocation) is preceded by
    acquiring the scope and followed by releasing it on all exit paths, with
    the original return value or failure passed through unchanged. *)
Definition apply_context_manager_decorator (obj : Decoratable) (cm : ContextManager)
  : Decoratable :=
  match obj with
  | DFunction fn => DFunction (scoped_call cm fn)
  | DClass methods =>
      DClass (map (fun nm => (fst nm, scoped_call cm (snd nm))) methods)
  end.

(** The invocation boundaries of a decoratable. *)
Definition invocations (obj : Decoratable) : list (list pyval -> M pyval) :=
  match obj with
  | DFunction fn => [fn]
  | DClass methods => map snd methods
  end.

(* ================================================================== *)
(** ** quiet_experimental_warnings (lines 110-130) *)
(* ================================================================== *)

(** Lines 124-128: the generator enters [catch_warnings], installs the
    "ignore" filter for [ExperimentalWarning] and yields. *)
Definition suppress_experimental_warnings : ContextManager :=
  fun A block =>
    warnings.catch_warnings
      (warnings.filterwarnings ActIgnore EmptyString ExperimentalWarning EmptyString 0 false ;;
       block).

Definition quiet_experimental_warnings (obj : Decoratable) : Decoratable :=
  apply_context_manager_decorator obj suppress_experimental_warnings.

(** The filter that line 127 installs. *)
Definition ignore_experimental : filter :=
  mkFilter ActIgnore None ExperimentalWarning None 0.

(** The world in which the block of a suppression scope starts. *)
Definition scope_entry (w : world) : world :=
  filters_mutated
    (set_filters (ignore_experimental :: warnings.remove_first ignore_experimental (filters w))
       (filters_mutated w)).

(* ================================================================== *)
(** ** deprecation_warning and experimental_warning (lines 60-99) *)
(* ================================================================== *)

Definition EXPERIMENTAL_WARNING_HELP : string :=
  "To mute warnings for experimental functionality, invoke"
  ++ " warnings.filterwarnings(" ++ dquote ++ "ignore" ++ dquote
  ++ ", category=dagster.ExperimentalWarning) or use"
  ++ " one of the other methods described at"
  ++ " https://docs.python.org/3/library/warnings.html#describing-warning-filters.".

(** The default of the [stacklevel] parameter of both functions. *)
Definition default_stacklevel : Z := 3.

Definition deprecation_message (subject breaking_version : string)
    (additional_warn_text : option string) : string :=
  subject ++ " is deprecated and will be removed in " ++ breaking_version ++ "."
  ++ (if truthy_opt_str additional_warn_text
      then " " ++ opt_str_text additional_warn_text
      else EmptyString).

Definition experimental_message (subject : string)
    (additional_warn_text : option string) : string :=
  let extra_text :=
    if truthy_opt_str additional_warn_text
    then " " ++ opt_str_text additional_warn_text
    else EmptyString in
  subject ++ " is experimental. It may break in future versions, even between dot"
  ++ " releases." ++ extra_text ++ " " ++ EXPERIMENTAL_WARNING_HELP.

Section Backcompat.

Variable re_match : bool -> string -> string -> bool.

Definition deprecation_warning (caller : Z -> frame)
    (subject breaking_version : string) (additional_warn_text : option string)
    (stacklevel : Z) : M unit :=
  warnings.warn re_match caller
    (deprecation_message subject breaking_version additional_warn_text)
    DeprecationWarning stacklevel.

Definition experimental_warning (caller : Z -> frame)
    (subject : string) (additional_warn_text : option string)
    (stacklevel : Z) : M unit :=
  warnings.warn re_match caller
    (experimental_message subject additional_warn_text)
    ExperimentalWarning stacklevel.

(* ---------------------------------------------------------------- *)
(** *** Code that uses the module *)
(* ---------------------------------------------------------------- *)

(** Bodies of functions that reach the warning channel through this module:
    they trigger experimental and deprecation notices, call functions
    decorated with [quiet_experimental_warnings], raise and handle
    exceptions. *)
Inductive client : Type :=
| Pass
| CallExperimental (caller : Z -> frame) (subject : string)
    (additional_warn_text : option string) (stacklevel : Z)
| CallDeprecation (caller : Z -> frame) (subject breaking_version : string)
    (additional_warn_text : option string) (stacklevel : Z)
| RaiseExn (e : exn)
| Then (c1 c2 : client)
| TryExcept (c handler : client)
| CallQuiet (body : client).

(** Calling a decorated function. *)
Definition call_function (obj : Decoratable) (args : list pyval) : M pyval :=
  match obj with
  | DFunction fn => fn args
  | DClass _ => raise (TypeError "not a function")
  end.

Fixpoint exec (c : client) : M pyval :=
  match c with
  | Pass => ret PyNone
  | CallExperimental caller subject text stacklevel =>
      experimental_warning caller subject text stacklevel ;; ret PyNone
  | CallDeprecation caller subject version text stacklevel =>
      deprecation_warning caller subject version text stacklevel ;; ret PyNone
  | RaiseExn e => raise e
  | Then c1 c2 => exec c1 ;; exec c2
  | TryExcept c1 handler => try_except (exec c1) (fun _ => exec handler)
  | CallQuiet body =>
      call_function (quiet_experimental_warnings (DFunction (fun _ => exec body))) []
  end.


(** The filter list is muted for experimental warnings when its first match
    for any of them is an "ignore" entry. *)
Definition muted (fs : list filter) : Prop :=
  forall text module lineno,
    warnings.search_filters re_match fs text ExperimentalWarning module lineno = ActIgnore.


End Backcompat.

(* ================================================================== *)
(** ** Further notions for the properties of the scope *)
(* ================================================================== *)

(** Reading [warnings.filters]. *)
Definition current_filters : M (list filter) :=
  fun w => (Return (filters w), w).

(** No [__warningregistry__] carries a version ahead of
    [warnings._filters_version]: a registry takes its version from that
    counter, which only grows. *)
Definition registries_bounded (w : world) : Prop :=
  forall g,
    reg_version (warnings.lookup_registry (registries w) g) <= filters_version w.

(** Bodies whose only dealings with the channel are experimental notices,
    directly or in decorated calls, each with a stack level that
    [warnings.warn] accepts: they raise nothing themselves and trigger no
    deprecation notice. *)
Fixpoint notices_only (c : client) : bool :=
  match c with
  | Pass => true
  | CallExperimental _ _ _ stacklevel => warnings.fits_ssize_t stacklevel
  | CallDeprecation _ _ _ _ _ => false
  | RaiseExn _ => false
  | Then c1 c2 => notices_only c1 && notices_only c2
  | TryExcept c1 handler => notices_only c1 && notices_only handler
  | CallQuiet body => notices_only body
  end.

(* ================================================================== *)
(** ** Sample data for the examples *)
(* ================================================================== *)

(** A stand-in for the regular expression engine: a pattern without
    metacharacters matches the texts it is a prefix of. *)
Definition re_prefix (ignore_case : bool) (pattern text : string) : bool :=
  prefixb pattern text.

Definition user_frame : frame := mkFrame 1 "__main__" "pipeline.py" 12.

Definition user_caller : Z -> frame := fun _ => user_frame.

(** No filters at all: every warning falls to the default action. *)
Definition bare_world : world := mkWorld [] 1 [] [] [] [].

(** After [warnings.simplefilter("always")]. *)
Definition always_world : world :=
  mkWorld [mkFilter ActAlways None Warning None 0] 1 [] [] [] [].

(** After [warnings.simplefilter("error")]. *)
Definition error_world : world :=
  mkWorld [mkFilter ActError None Warning None 0] 1 [] [] [] [].

(** After the call that [EXPERIMENTAL_WARNING_HELP] recommends. *)
Definition muted_world : world :=
  mkWorld [ignore_experimental] 1 [] [] [] [].

(** [def my_experimental_function(): experimental_warning("Baz")] followed by
    a failure. *)
Definition failing_body : client :=
  Then (CallExperimental user_caller "Baz" None default_stacklevel)
       (RaiseExn (OtherError "RuntimeError" "boom")).

(** [lambda val: not val], the coercion of the docstring's example. *)
Definition negate : pyval -> M pyval :=
  fun v => ret (PyBool (negb (truthy_val v))).

Definition failing_function : list pyval -> M pyval :=
  fun _ => exec re_prefix failing_body.

(** After [warnings.simplefilter("ignore")]. *)
Definition silent_world : world :=
  mkWorld [mkFilter ActIgnore None Warning None 0] 1 [] [] [] [].


(** A callable object whose class makes it false in a boolean context. *)
Definition falsy_negate : pyobj := CallableObject false negate.

(** Two experimental notices, the second in a decorated call. *)
Definition noticing_body : client :=
  Then (CallExperimental user_caller "Baz" None default_stacklevel)
       (CallQuiet (CallExperimental user_caller "Qux" (Some "Soon stable.") default_stacklevel)).

(** A deprecation notice followed by an experimental one. *)
Definition deprecating_body : client :=
  Then (CallDeprecation user_caller "Foo" "2.0" None default_stacklevel)
       (CallExperimental user_caller "Baz" None default_stacklevel).

(** A class whose methods are decorated together. *)
Definition sample_class : Decoratable :=
  DClass [("run", failing_function); ("noop", fun _ => ret PyNone)].

(* ================================================================== *)
(** ** Strings *)
(* ================================================================== *)

Lemma prefixb_refl_app (p s : string) : prefixb p (p ++ s) = true.
Proof.
  induction p as [|a p IH]; simpl.
  - reflexivity.
  - rewrite Ascii.eqb_refl, IH. reflexivity.
Qed.

Lemma containsb_prefix (p s : string) : prefixb p s = true -> containsb p s = true.
Proof.
  intros H. destruct s; simpl; rewrite H; reflexivity.
Qed.

Lemma containsb_skip (sub pre s : string) :
  containsb sub s = true -> containsb sub (pre ++ s) = true.
Proof.
  intros H. induction pre as [|a pre IH]; simpl.
  - exact H.
  - rewrite IH. apply orb_true_r.
Qed.

Lemma string_app_assoc (a b c : string) : (a ++ b) ++ c = a ++ (b ++ c).
Proof.
  induction a as [|x a IH]; simpl; [reflexivity | now rewrite IH].
Qed.

Lemma truthy_opt_str_some (t : string) :
  t <> EmptyString -> truthy_opt_str (Some t) = true.
Proof.
  intros H. simpl. destruct (String.eqb_spec t EmptyString); [contradiction | reflexivity].
Qed.

(* ================================================================== *)
(** ** The suppression scope *)
(* ================================================================== *)

(** A suppression scope runs its block in [scope_entry w] and then puts the
    filter list of [w] back. *)
Lemma suppress_experimental_warnings_run (A : Type) (block : M A) (w : world) :
  suppress_experimental_warnings A block w =
  (fst (block (scope_entry w)),
   filters_mutated (set_filters (filters w) (snd (block (scope_entry w))))).
Proof.
  unfold suppress_experimental_warnings, warnings.catch_warnings,
    warnings.filterwarnings, warnings.add_filter, bind. simpl.
  fold ignore_experimental.
  change (filters_mutated
            (set_filters
               (ignore_experimental :: warnings.remove_first ignore_experimental (filters w))
               (filters_mutated (set_filters (filters w) w))))
    with (scope_entry (set_filters (filters w) w)).
  replace (set_filters (filters w) w) with w by (destruct w; reflexivity).
  destruct (block (scope_entry w)) as [r w2]. reflexivity.
Qed.

Lemma scope_entry_filters (w : world) :
  filters (scope_entry w) =
  ignore_experimental :: warnings.remove_first ignore_experimental (filters w).
Proof. reflexivity. Qed.

Lemma invocations_quiet (obj : Decoratable) :
  invocations (quiet_experimental_warnings obj) =
  map (scoped_call suppress_experimental_warnings) (invocations obj).
Proof.
  destruct obj as [fn | methods]; simpl.
  - reflexivity.
  - rewrite !map_map. reflexivity.
Qed.

(** Every invocation boundary of a decorated target is the scoped call of
    one of the original's. *)
Lemma in_invocations_quiet (obj : Decoratable) (g : list pyval -> M pyval) :
  In g (invocations (quiet_experimental_warnings obj)) ->
  exists fn, In fn (invocations obj) /\ g = scoped_call suppress_experimental_warnings fn.
Proof.
  rewrite invocations_quiet, in_map_iff.
  intros [fn [Heq Hin]]. exists fn. split; [exact Hin | now symmetry].
Qed.

Lemma scoped_call_run (fn : list pyval -> M pyval) (args : list pyval) (w : world) :
  scoped_call suppress_experimental_warnings fn args w =
  (fst (fn args (scope_entry w)),
   filters_mutated (set_filters (filters w) (snd (fn args (scope_entry w))))).
Proof. unfold scoped_call. apply suppress_experimental_warnings_run. Qed.

(* ================================================================== *)
(** ** The warning channel *)
(* ================================================================== *)

Section ChannelFacts.

Variable re_match : bool -> string -> string -> bool.

Ltac channel_cases :=
  unfold warnings.warn_explicit;
  repeat match goal with
         | |- context [if ?b then _ else _] => destruct b eqn:?
         | |- context [match warnings.search_filters ?r ?f ?t ?c ?m ?l with _ => _ end] =>
             destruct (warnings.search_filters r f t c m l) eqn:?
         end; simpl.

(** [warn_explicit] never touches the filter list or its version. *)
Lemma warn_explicit_filters (text : string) (cat : category) (fr : frame) (w : world) :
  filters (snd (warnings.warn_explicit re_match text cat fr w)) = filters w
  /\ filters_version (snd (warnings.warn_explicit re_match text cat fr w)) = filters_version w.
Proof. channel_cases; split; reflexivity. Qed.

(** It shows nothing, or exactly the warning it was given. *)
Lemma warn_explicit_shown (text : string) (cat : category) (fr : frame) (w : world) :
  shown (snd (warnings.warn_explicit re_match text cat fr w)) = shown w
  \/ shown (snd (warnings.warn_explicit re_match text cat fr w)) =
     (shown w ++ [mkDiagnostic text cat (fr_filename fr) (fr_lineno fr)])%list.
Proof. channel_cases; auto. Qed.

(** It raises only for the action "error", and then the warning itself. *)
Lemma warn_explicit_raise (text : string) (cat : category) (fr : frame) (w : world) (e : exn) :
  fst (warnings.warn_explicit re_match text cat fr w) = Raise e ->
  e = WarningAsError cat text
  /\ warnings.search_filters re_match (filters w) text cat (fr_module fr) (fr_lineno fr) = ActError.
Proof.
  channel_cases; intros H; try discriminate;
    inversion H; subst; split; reflexivity.
Qed.

(** Under the action "ignore" the call returns and shows nothing. *)
Lemma warn_explicit_ignored (text : string) (cat : category) (fr : frame) (w : world) :
  warnings.search_filters re_match (filters w) text cat (fr_module fr) (fr_lineno fr) = ActIgnore ->
  fst (warnings.warn_explicit re_match text cat fr w) = Return tt
  /\ shown (snd (warnings.warn_explicit re_match text cat fr w)) = shown w.
Proof.
  intros H. unfold warnings.warn_explicit. rewrite H.
  destruct (warnings.has_key _ _); split; reflexivity.
Qed.

(** The same facts for [warnings.warn], which records the submission and
    converts the stack level first. *)
Lemma warn_overflow (caller : Z -> frame) (text : string) (cat : category) (sl : Z) (w : world) :
  warnings.fits_ssize_t sl = false ->
  warnings.warn re_match caller text cat sl w
  = (Raise warnings.overflow_error, submit text cat w).
Proof. intros H. unfold warnings.warn. now rewrite H. Qed.

Lemma warn_fits (caller : Z -> frame) (text : string) (cat : category) (sl : Z) (w : world) :
  warnings.fits_ssize_t sl = true ->
  warnings.warn re_match caller text cat sl w
  = warnings.warn_explicit re_match text cat (caller sl) (submit text cat w).
Proof. intros H. unfold warnings.warn. now rewrite H. Qed.

Lemma warn_filters (caller : Z -> frame) (text : string) (cat : category) (sl : Z) (w : world) :
  filters (snd (warnings.warn re_match caller text cat sl w)) = filters w.
Proof.
  unfold warnings.warn. destruct (warnings.fits_ssize_t sl); [| reflexivity].
  exact (proj1 (warn_explicit_filters text cat (caller sl) (submit text cat w))).
Qed.

Lemma warn_shown (caller : Z -> frame) (text : string) (cat : category) (sl : Z) (w : world) :
  shown (snd (warnings.warn re_match caller text cat sl w)) = shown w
  \/ shown (snd (warnings.warn re_match caller text cat sl w)) =
     (shown w ++ [mkDiagnostic text cat (fr_filename (caller sl)) (fr_lineno (caller sl))])%list.
Proof.
  unfold warnings.warn. destruct (warnings.fits_ssize_t sl); [| now left].
  exact (warn_explicit_shown text cat (caller sl) (submit text cat w)).
Qed.

Lemma warn_explicit_submitted (text : string) (cat : category) (fr : frame) (w : world) :
  submitted (snd (warnings.warn_explicit re_match text cat fr w)) = submitted w.
Proof. channel_cases; reflexivity. Qed.

(** Every call of [warnings.warn] is recorded, whatever becomes of it. *)
Lemma warn_submitted (caller : Z -> frame) (text : string) (cat : category) (sl : Z) (w : world) :
  submitted (snd (warnings.warn re_match caller text cat sl w))
  = (submitted w ++ [(text, cat)])%list.
Proof.
  unfold warnings.warn. destruct (warnings.fits_ssize_t sl); [| reflexivity].
  rewrite warn_explicit_submitted. reflexivity.
Qed.

Lemma warn_raise (caller : Z -> frame) (text : string) (cat : category) (sl : Z)
    (w : world) (e : exn) :
  warnings.fits_ssize_t sl = true ->
  fst (warnings.warn re_match caller text cat sl w) = Raise e ->
  e = WarningAsError cat text
  /\ warnings.search_filters re_match (filters w) text cat
       (fr_module (caller sl)) (fr_lineno (caller sl)) = ActError.
Proof.
  intros Hfit. rewrite (warn_fits caller text cat sl w Hfit).
  exact (warn_explicit_raise text cat (caller sl) (submit text cat w) e).
Qed.

Lemma warn_ignored (caller : Z -> frame) (text : string) (cat : category) (sl : Z) (w : world) :
  warnings.search_filters re_match (filters w) text cat
    (fr_module (caller sl)) (fr_lineno (caller sl)) = ActIgnore ->
  fst (warnings.warn re_match caller text cat sl w)
  = (if warnings.fits_ssize_t sl then Return tt else Raise warnings.overflow_error)
  /\ shown (snd (warnings.warn re_match caller text cat sl w)) = shown w.
Proof.
  unfold warnings.warn. destruct (warnings.fits_ssize_t sl); [| split; reflexivity].
  exact (warn_explicit_ignored text cat (caller sl) (submit text cat w)).
Qed.


Lemma ignore_experimental_matches (text module : string) (lineno : N) :
  warnings.filter_matches re_match ignore_experimental text ExperimentalWarning module lineno = true.
Proof. reflexivity. Qed.

Lemma muted_cons (fs : list filter) : muted re_match (ignore_experimental :: fs).
Proof. intros text module lineno. reflexivity. Qed.

Lemma muted_scope_entry (w : world) : muted re_match (filters (scope_entry w)).
Proof. rewrite scope_entry_filters. apply muted_cons. Qed.

Lemma experimental_shown_app (w : world) (l : list diagnostic) (w' : world) :
  shown w' = (shown w ++ l)%list ->
  experimental_shown w' =
  (experimental_shown w
   ++ List.filter (fun d => issubclass (d_category d) ExperimentalWarning) l)%list.
Proof.
  unfold experimental_shown. intros ->. apply filter_app.
Qed.

(** In a muted state [experimental_warning] shows nothing; it returns,
    unless its stack level does not fit. *)
Lemma experimental_warning_muted (caller : Z -> frame) (subject : string)
    (text : option string) (stacklevel : Z) (w : world) :
  muted re_match (filters w) ->
  fst (experimental_warning re_match caller subject text stacklevel w)
  = (if warnings.fits_ssize_t stacklevel then Return tt else Raise warnings.overflow_error)
  /\ shown (snd (experimental_warning re_match caller subject text stacklevel w)) = shown w.
Proof.
  intros Hm. unfold experimental_warning. apply warn_ignored, Hm.
Qed.

(** A deprecation warning leaves the experimental part of the sink alone. *)
Lemma deprecation_warning_experimental_shown (caller : Z -> frame)
    (subject version : string) (text : option string) (stacklevel : Z) (w : world) :
  experimental_shown (snd (deprecation_warning re_match caller subject version text stacklevel w))
  = experimental_shown w.
Proof.
  unfold deprecation_warning.
  destruct (warn_shown caller (deprecation_message subject version text) DeprecationWarning
              stacklevel w) as [H | H].
  - unfold experimental_shown. now rewrite H.
  - rewrite (experimental_shown_app w _ _ H). simpl. apply app_nil_r.
Qed.

End ChannelFacts.

(* ================================================================== *)
(** ** Code that uses the module *)
(* ================================================================== *)

Section ClientFacts.

Variable re_match : bool -> string -> string -> bool.

Lemma exec_call_quiet (body : client) (w : world) :
  exec re_match (CallQuiet body) w =
  (fst (exec re_match body (scope_entry w)),
   filters_mutated (set_filters (filters w) (snd (exec re_match body (scope_entry w))))).
Proof. simpl. apply scoped_call_run. Qed.

(** No body changes the filter list for its caller. *)
Lemma exec_filters (c : client) :
  forall w, filters (snd (exec re_match c w)) = filters w.
Proof.
  induction c as [| caller subject text sl | caller subject version text sl | e
                  | c1 IH1 c2 IH2 | c1 IH1 h IHh | body IH]; intros w.
  - reflexivity.
  - simpl. unfold bind, experimental_warning.
    pose proof (warn_filters re_match caller
                  (experimental_message subject text) ExperimentalWarning sl w) as H.
    destruct (warnings.warn _ _ _ _ _ w) as [[u | e] w1]; exact H.
  - simpl. unfold bind, deprecation_warning.
    pose proof (warn_filters re_match caller
                  (deprecation_message subject version text) DeprecationWarning sl w) as H.
    destruct (warnings.warn _ _ _ _ _ w) as [[u | e] w1]; exact H.
  - reflexivity.
  - simpl. unfold bind. specialize (IH1 w).
    destruct (exec re_match c1 w) as [[v | e] w1]; simpl in *.
    + rewrite IH2. exact IH1.
    + exact IH1.
  - simpl. unfold try_except. specialize (IH1 w).
    destruct (exec re_match c1 w) as [[v | e] w1]; simpl in *.
    + exact IH1.
    + rewrite IHh. exact IH1.
  - rewrite exec_call_quiet. reflexivity.
Qed.

(** The sink only grows. *)
Lemma exec_shown_grows (c : client) :
  forall w, exists l, shown (snd (exec re_match c w)) = (shown w ++ l)%list.
Proof.
  induction c as [| caller subject text sl | caller subject version text sl | e
                  | c1 IH1 c2 IH2 | c1 IH1 h IHh | body IH]; intros w.
  - exists []. simpl. now rewrite app_nil_r.
  - simpl. unfold bind, experimental_warning.
    destruct (warn_shown re_match caller
                (experimental_message subject text) ExperimentalWarning sl w) as [H | H];
      destruct (warnings.warn _ _ _ _ _ w) as [[u | e] w1]; simpl in *;
      rewrite H; eauto using app_nil_r.
    all: exists []; now rewrite app_nil_r.
  - simpl. unfold bind, deprecation_warning.
    destruct (warn_shown re_match caller
                (deprecation_message subject version text) DeprecationWarning sl w) as [H | H];
      destruct (warnings.warn _ _ _ _ _ w) as [[u | e] w1]; simpl in *;
      rewrite H; eauto using app_nil_r.
    all: exists []; now rewrite app_nil_r.
  - exists []. simpl. now rewrite app_nil_r.
  - simpl. unfold bind. destruct (IH1 w) as [l1 H1].
    destruct (exec re_match c1 w) as [[v | e] w1]; simpl in *.
    + destruct (IH2 w1) as [l2 H2]. exists (l1 ++ l2)%list.
      rewrite H2, H1. now rewrite app_assoc.
    + eauto.
  - simpl. unfold try_except. destruct (IH1 w) as [l1 H1].
    destruct (exec re_match c1 w) as [[v | e] w1]; simpl in *.
    + eauto.
    + destruct (IHh w1) as [l2 H2]. exists (l1 ++ l2)%list.
      rewrite H2, H1. now rewrite app_assoc.
  - rewrite exec_call_quiet. simpl.
    destruct (IH (scope_entry w)) as [l H]. exists l.
    rewrite H. reflexivity.
Qed.


(** In a muted state, no body lets an experimental warning reach the sink. *)
Lemma exec_muted_silent (c : client) :
  forall w, muted re_match (filters w) ->
            experimental_shown (snd (exec re_match c w)) = experimental_shown w.
Proof.
  induction c as [| caller subject text sl | caller subject version text sl | e
                  | c1 IH1 c2 IH2 | c1 IH1 h IHh | body IH]; intros w Hm.
  - reflexivity.
  - simpl. unfold bind.
    destruct (experimental_warning_muted re_match caller subject text sl w Hm) as [Hr Hs].
    destruct (experimental_warning re_match caller subject text sl w) as [[u | e] w1];
      simpl in *; unfold experimental_shown; now rewrite Hs.
  - simpl. unfold bind.
    pose proof (deprecation_warning_experimental_shown re_match caller subject version text sl w) as H.
    destruct (deprecation_warning re_match caller subject version text sl w) as [[u | e] w1];
      exact H.
  - reflexivity.
  - simpl. unfold bind.
    pose proof (IH1 w Hm) as H1. pose proof (exec_filters c1 w) as F1.
    destruct (exec re_match c1 w) as [[v | e] w1]; simpl in *.
    + rewrite IH2; [exact H1 | now rewrite F1].
    + exact H1.
  - simpl. unfold try_except.
    pose proof (IH1 w Hm) as H1. pose proof (exec_filters c1 w) as F1.
    destruct (exec re_match c1 w) as [[v | e] w1]; simpl in *.
    + exact H1.
    + rewrite IHh; [exact H1 | now rewrite F1].
  - rewrite exec_call_quiet. simpl.
    change (experimental_shown (snd (exec re_match body (scope_entry w))) = experimental_shown w).
    rewrite IH by apply muted_scope_entry. reflexivity.
Qed.

(** The call of a decorated function shows no experimental warning, whatever
    the state it is called in. *)
Lemma exec_quiet_silent (body : client) (w : world) :
  experimental_shown (snd (exec re_match (CallQuiet body) w)) = experimental_shown w.
Proof.
  rewrite exec_call_quiet.
  change (experimental_shown (snd (exec re_match body (scope_entry w))) = experimental_shown w).
  rewrite exec_muted_silent by apply muted_scope_entry. reflexivity.
Qed.




End ClientFacts.

(* ================================================================== *)
(** ** normalize_renamed_param *)
(* ================================================================== *)

Lemma is_none_false (v : pyval) : v <> PyNone -> is_none v = false.
Proof. destruct v; simpl; congruence. Qed.

Lemma conflict_message_names (old_arg new_arg : string) :
  conflict_message (PyStr old_arg) (PyStr new_arg) =
  "Do not use deprecated " ++ dquote ++ old_arg ++ dquote
  ++ " now that you are using " ++ dquote ++ new_arg ++ dquote ++ ".".
Proof. reflexivity. Qed.

(** Once the three argument checks have passed, the function is the
    three-way choice of lines 48-57. *)
Lemma normalize_renamed_param_checked
    (new_val old_val : pyval) (new_arg old_arg : string) (coerce_old_to_new : pyobj)
    (w : world) :
  obj_is_none coerce_old_to_new || callable coerce_old_to_new = true ->
  normalize_renamed_param new_val (PyStr new_arg) old_val (PyStr old_arg) coerce_old_to_new w =
  (if negb (is_none new_val) && negb (is_none old_val) then
     check.failed (conflict_message (PyStr old_arg) (PyStr new_arg))
   else if negb (is_none old_val) then
     if truthy coerce_old_to_new then call coerce_old_to_new old_val else ret old_val
   else ret new_val) w.
Proof.
  intros Hc. unfold normalize_renamed_param, check.str_param, check.opt_callable_param.
  simpl. rewrite Hc. reflexivity.
Qed.

(** C1. When both [new_val] and [old_val] are present, the call fails at
    once with the check error whose message is
    [Do not use deprecated "old_arg" now that you are using "new_arg".]: it
    names both arguments, no value is returned and the state is untouched.
    The names are strings and the coercion is absent or callable, as the
    signature declares. *)
Theorem normalize_renamed_param_conflict
    (new_val old_val : pyval) (new_arg old_arg : string) (coerce_old_to_new : pyobj)
    (w : world) :
  new_val <> PyNone ->
  old_val <> PyNone ->
  obj_is_none coerce_old_to_new || callable coerce_old_to_new = true ->
  normalize_renamed_param new_val (PyStr new_arg) old_val (PyStr old_arg) coerce_old_to_new w
  = (Raise (CheckError
              ("Do not use deprecated " ++ dquote ++ old_arg ++ dquote
               ++ " now that you are using " ++ dquote ++ new_arg ++ dquote ++ ".")), w)
  /\ containsb old_arg (conflict_message (PyStr old_arg) (PyStr new_arg)) = true
  /\ containsb new_arg (conflict_message (PyStr old_arg) (PyStr new_arg)) = true
  /\ prefixb "Do not use deprecated" (conflict_message (PyStr old_arg) (PyStr new_arg)) = true.
Proof.
  intros Hn Ho Hc. split; [| split; [| split]].
  - rewrite normalize_renamed_param_checked by exact Hc.
    rewrite (is_none_false _ Hn), (is_none_false _ Ho). reflexivity.
  - rewrite conflict_message_names.
    apply containsb_skip, containsb_skip, containsb_prefix, prefixb_refl_app.
  - rewrite conflict_message_names.
    do 6 apply containsb_skip. apply containsb_prefix, prefixb_refl_app.
  - reflexivity.
Qed.


(** C6. With [old_val] absent the result is [new_val] as it was given, also
    when [new_val] is [None] itself; the state is unchanged. *)
Theorem normalize_renamed_param_new_only
    (new_val : pyval) (new_arg old_arg : string) (coerce_old_to_new : pyobj) (w : world) :
  obj_is_none coerce_old_to_new || callable coerce_old_to_new = true ->
  normalize_renamed_param new_val (PyStr new_arg) PyNone (PyStr old_arg) coerce_old_to_new w
  = (Return new_val, w)
  /\ normalize_renamed_param PyNone (PyStr new_arg) PyNone (PyStr old_arg) coerce_old_to_new w
     = (Return PyNone, w).
Proof.
  intros Hc. split; rewrite normalize_renamed_param_checked by exact Hc; simpl.
  - rewrite andb_false_r. reflexivity.
  - reflexivity.
Qed.

(** C10. The three argument checks run before the values are looked at: a
    name that is not a string, or a coercion that is neither [None] nor
    callable, ends the call with a parameter check failure whatever
    [new_val] and [old_val] are.  An empty string passes as a name: with
    empty names and no old value the call returns [new_val]. *)
Theorem normalize_renamed_param_validates
    (new_val new_arg old_val old_arg : pyval) (coerce_old_to_new : pyobj) (w : world) :
  isinstance_str new_arg && isinstance_str old_arg
  && (obj_is_none coerce_old_to_new || callable coerce_old_to_new) = false ->
  (exists param expected,
      normalize_renamed_param new_val new_arg old_val old_arg coerce_old_to_new w
      = (Raise (ParameterCheckError param expected), w)
      /\ is_check_error (ParameterCheckError param expected) = true)
  /\ normalize_renamed_param new_val (PyStr EmptyString) PyNone (PyStr EmptyString)
       (Plain PyNone) w
     = (Return new_val, w).
Proof.
  intros H. split.
  - unfold normalize_renamed_param, check.str_param, check.opt_callable_param, bind, raise, ret.
    destruct (isinstance_str new_arg); simpl in *; [| eauto].
    destruct (isinstance_str old_arg); simpl in *; [| eauto].
    rewrite H. eauto.
  - rewrite normalize_renamed_param_checked by reflexivity. simpl.
    rewrite andb_false_r. reflexivity.
Qed.

(** X3. A callable object that is false in a boolean context is not
    applied: line 55 tests the truth value of [coerce_old_to_new], not its
    presence, so [old_val] comes back unchanged. *)
Remark normalize_renamed_param_falsy_callable
    (old_val : pyval) (new_arg old_arg : string) (f : pyval -> M pyval) (w : world) :
  old_val <> PyNone ->
  normalize_renamed_param PyNone (PyStr new_arg) old_val (PyStr old_arg)
    (CallableObject false f) w
  = (Return old_val, w).
Proof.
  intros Ho. rewrite normalize_renamed_param_checked by reflexivity.
  rewrite (is_none_false _ Ho). reflexivity.
Qed.

(* ================================================================== *)
(** ** deprecation_warning and experimental_warning *)
(* ================================================================== *)

Section Diagnostics.

Variable re_match : bool -> string -> string -> bool.

Lemma deprecation_message_absent (subject breaking_version : string) :
  deprecation_message subject breaking_version None
  = subject ++ " is deprecated and will be removed in " ++ breaking_version ++ ".".
Proof. reflexivity. Qed.

Lemma deprecation_message_empty (subject breaking_version : string) :
  deprecation_message subject breaking_version (Some EmptyString)
  = subject ++ " is deprecated and will be removed in " ++ breaking_version ++ ".".
Proof. reflexivity. Qed.

Lemma deprecation_message_text (subject breaking_version t : string) :
  t <> EmptyString ->
  deprecation_message subject breaking_version (Some t)
  = (subject ++ " is deprecated and will be removed in " ++ breaking_version ++ ".")
    ++ " " ++ t.
Proof.
  intros Ht. unfold deprecation_message. rewrite (truthy_opt_str_some t Ht).
  rewrite !string_app_assoc. reflexivity.
Qed.

(** C7 (amended). [deprecation_warning] hands [warnings.warn] a
    [DeprecationWarning] whose message is
    [{subject} is deprecated and will be removed in {breaking_version}.],
    followed by a space and the additional text when that text is supplied
    and not empty; an empty additional text is treated like an absent one.
    The two examples of the claim are the last two conjuncts. *)
Theorem deprecation_warning_message
    (caller : Z -> frame) (subject breaking_version : string)
    (additional_warn_text : option string) (stacklevel : Z) (w : world) :
  deprecation_message subject breaking_version additional_warn_text
  = match additional_warn_text with
    | None =>
        subject ++ " is deprecated and will be removed in " ++ breaking_version ++ "."
    | Some t =>
        if String.eqb t EmptyString
        then subject ++ " is deprecated and will be removed in " ++ breaking_version ++ "."
        else (subject ++ " is deprecated and will be removed in " ++ breaking_version ++ ".")
             ++ " " ++ t
    end
  /\ deprecation_warning re_match caller subject breaking_version additional_warn_text
       stacklevel
     = warnings.warn re_match caller
         (deprecation_message subject breaking_version additional_warn_text)
         DeprecationWarning stacklevel
  /\ submitted (snd (deprecation_warning re_match caller subject breaking_version
                       additional_warn_text stacklevel w))
     = (submitted w
        ++ [(deprecation_message subject breaking_version additional_warn_text,
             DeprecationWarning)])%list
  /\ deprecation_message "Foo" "2.0" None
     = "Foo is deprecated and will be removed in 2.0."
  /\ deprecation_message "Foo" "2.0" (Some "Use Bar.")
     = "Foo is deprecated and will be removed in 2.0. Use Bar.".
Proof.
  split; [| split; [reflexivity | split; [apply warn_submitted | split; reflexivity]]].
  destruct additional_warn_text as [t |]; [| reflexivity].
  destruct (String.eqb_spec t EmptyString) as [-> | Ht].
  - reflexivity.
  - apply deprecation_message_text, Ht.
Qed.

Lemma experimental_message_shape (subject : string) (additional_warn_text : option string) :
  experimental_message subject additional_warn_text
  = (subject ++ " is experimental. It may break in future versions, even between dot releases.")
    ++ (if truthy_opt_str additional_warn_text
        then " " ++ opt_str_text additional_warn_text else EmptyString)
    ++ " " ++ EXPERIMENTAL_WARNING_HELP.
Proof.
  unfold experimental_message. rewrite !string_app_assoc. reflexivity.
Qed.

Lemma prefixb_middle (a b c : string) : prefixb (a ++ b) (a ++ b ++ c) = true.
Proof. rewrite <- string_app_assoc. apply prefixb_refl_app. Qed.

(** C8. [experimental_warning] hands [warnings.warn] an
    [ExperimentalWarning] whose message starts with
    [{subject} is experimental. It may break in future versions, even between
    dot releases.], carries the additional text, when there is one, right
    after it and a space, and ends with a space and
    [EXPERIMENTAL_WARNING_HELP], the fixed help text that names
    [warnings.filterwarnings] and [dagster.ExperimentalWarning]. *)
Theorem experimental_warning_message
    (caller : Z -> frame) (subject : string)
    (additional_warn_text : option string) (stacklevel : Z) (w : world) :
  experimental_warning re_match caller subject additional_warn_text stacklevel
  = warnings.warn re_match caller (experimental_message subject additional_warn_text)
      ExperimentalWarning stacklevel
  /\ submitted (snd (experimental_warning re_match caller subject additional_warn_text
                       stacklevel w))
     = (submitted w
        ++ [(experimental_message subject additional_warn_text, ExperimentalWarning)])%list
  /\ prefixb
       (subject ++ " is experimental. It may break in future versions, even between dot releases.")
       (experimental_message subject additional_warn_text) = true
  /\ match additional_warn_text with
     | Some t =>
         prefixb
           ((subject
             ++ " is experimental. It may break in future versions, even between dot releases.")
            ++ " " ++ t)
           (experimental_message subject additional_warn_text) = true
     | None =>
         experimental_message subject None
         = (subject
            ++ " is experimental. It may break in future versions, even between dot releases.")
           ++ " " ++ EXPERIMENTAL_WARNING_HELP
     end
  /\ (exists body,
         experimental_message subject additional_warn_text
         = body ++ " " ++ EXPERIMENTAL_WARNING_HELP)
  /\ containsb EXPERIMENTAL_WARNING_HELP (experimental_message subject additional_warn_text) = true
  /\ containsb "warnings.filterwarnings" EXPERIMENTAL_WARNING_HELP = true
  /\ containsb "dagster.ExperimentalWarning" EXPERIMENTAL_WARNING_HELP = true.
Proof.
  split; [reflexivity |].
  split; [apply warn_submitted |].
  split; [rewrite experimental_message_shape; apply prefixb_refl_app |].
  split.
  { destruct additional_warn_text as [t |];
      [| exact (experimental_message_shape subject None)].
    rewrite experimental_message_shape.
    destruct (String.eqb_spec t EmptyString) as [-> | Ht].
    - exact (prefixb_middle _ " " EXPERIMENTAL_WARNING_HELP).
    - rewrite (truthy_opt_str_some t Ht).
      exact (prefixb_middle _ (" " ++ t) (" " ++ EXPERIMENTAL_WARNING_HELP)). }
  split.
  { rewrite experimental_message_shape.
    exists ((subject
             ++ " is experimental. It may break in future versions, even between dot releases.")
            ++ (if truthy_opt_str additional_warn_text
                then " " ++ opt_str_text additional_warn_text else EmptyString)).
    rewrite !string_app_assoc. reflexivity. }
  split.
  { rewrite experimental_message_shape.
    apply containsb_skip, containsb_skip, containsb_skip, containsb_prefix.
    destruct EXPERIMENTAL_WARNING_HELP; simpl; [reflexivity |].
    rewrite Ascii.eqb_refl. clear. induction s; simpl; [reflexivity |].
    now rewrite Ascii.eqb_refl. }
  split; reflexivity.
Qed.

(** C9 (amended). For a stack level that fits the C type [ssize_t], neither
    function raises by itself: the call returns [None] unless the first
    matching filter of the channel has the action "error", and what is
    raised then is the warning that the channel escalated.  A stack level
    outside that type ends either call with OverflowError, whatever the
    filters are, and nothing is shown. *)
Theorem warning_functions_raise_only_for_the_channel
    (caller : Z -> frame) (subject breaking_version : string)
    (additional_warn_text : option string) (stacklevel : Z) (w : world) :
  (if warnings.fits_ssize_t stacklevel
   then
     fst (deprecation_warning re_match caller subject breaking_version
            additional_warn_text stacklevel w) = Return tt
     \/ (fst (deprecation_warning re_match caller subject breaking_version
                additional_warn_text stacklevel w)
         = Raise (WarningAsError DeprecationWarning
                    (deprecation_message subject breaking_version additional_warn_text))
         /\ warnings.search_filters re_match (filters w)
              (deprecation_message subject breaking_version additional_warn_text)
              DeprecationWarning (fr_module (caller stacklevel)) (fr_lineno (caller stacklevel))
            = ActError)
   else
     fst (deprecation_warning re_match caller subject breaking_version
            additional_warn_text stacklevel w) = Raise warnings.overflow_error
     /\ shown (snd (deprecation_warning re_match caller subject breaking_version
                      additional_warn_text stacklevel w)) = shown w)
  /\ (if warnings.fits_ssize_t stacklevel
      then
        fst (experimental_warning re_match caller subject additional_warn_text stacklevel w)
        = Return tt
        \/ (fst (experimental_warning re_match caller subject additional_warn_text
                   stacklevel w)
            = Raise (WarningAsError ExperimentalWarning
                       (experimental_message subject additional_warn_text))
            /\ warnings.search_filters re_match (filters w)
                 (experimental_message subject additional_warn_text)
                 ExperimentalWarning (fr_module (caller stacklevel))
                 (fr_lineno (caller stacklevel))
               = ActError)
      else
        fst (experimental_warning re_match caller subject additional_warn_text stacklevel w)
        = Raise warnings.overflow_error
        /\ shown (snd (experimental_warning re_match caller subject additional_warn_text
                         stacklevel w)) = shown w).
Proof.
  assert (Hwarn : forall text cat,
             if warnings.fits_ssize_t stacklevel
             then
               fst (warnings.warn re_match caller text cat stacklevel w) = Return tt
               \/ (fst (warnings.warn re_match caller text cat stacklevel w)
                   = Raise (WarningAsError cat text)
                   /\ warnings.search_filters re_match (filters w) text cat
                        (fr_module (caller stacklevel)) (fr_lineno (caller stacklevel))
                      = ActError)
             else
               fst (warnings.warn re_match caller text cat stacklevel w)
               = Raise warnings.overflow_error
               /\ shown (snd (warnings.warn re_match caller text cat stacklevel w)) = shown w).
  { intros text cat. destruct (warnings.fits_ssize_t stacklevel) eqn:Hfit.
    - destruct (fst (warnings.warn re_match caller text cat stacklevel w))
        as [[] | e] eqn:E.
      + now left.
      + right. destruct (warn_raise re_match _ _ _ _ _ _ Hfit E) as [-> Hs].
        split; [reflexivity | exact Hs].
    - rewrite (warn_overflow re_match caller text cat stacklevel w Hfit).
      split; reflexivity. }
  split; apply Hwarn.
Qed.

End Diagnostics.

(* ================================================================== *)
(** ** quiet_experimental_warnings *)
(* ================================================================== *)

(** C2. Every invocation of a decorated target leaves [warnings.filters] as
    it found it, on every exit path and so when the wrapped call raises:
    the filter installed on entry is gone and the earlier list is back,
    entry for entry.  The outcome, a value or an exception, is that of the
    original callable run inside the scope. *)
Theorem quiet_experimental_warnings_restores_filters
    (obj : Decoratable) (g : list pyval -> M pyval) (args : list pyval) (w : world) :
  In g (invocations (quiet_experimental_warnings obj)) ->
  filters (snd (g args w)) = filters w
  /\ exists fn,
      In fn (invocations obj)
      /\ fst (g args w) = fst (fn args (scope_entry w))
      /\ shown (snd (g args w)) = shown (snd (fn args (scope_entry w))).
Proof.
  intros Hin. destruct (in_invocations_quiet obj g Hin) as [fn [Hfn ->]].
  rewrite scoped_call_run. simpl. split; [reflexivity |].
  exists fn. repeat split. exact Hfn.
Qed.

Section Suppression.

Variable re_match : bool -> string -> string -> bool.


(** C4. A decorated call made inside an outer suppression scope, at any
    point [w1] where the filter list is as the outer scope set it on entry,
    hands that list back when it returns or raises: the outer "ignore"
    filter is still the first entry, and an experimental notice triggered
    right after the inner call is dropped: nothing is shown, and the call
    returns (a stack level that does not fit [ssize_t] is refused with
    OverflowError as under any filters).  The last conjunct is the same
    fact for a whole outer body that calls a decorated function and goes
    on. *)
Theorem nested_suppression_keeps_outer_scope
    (inner : Decoratable) (g : list pyval -> M pyval) (args : list pyval) (w w1 : world) :
  In g (invocations (quiet_experimental_warnings inner)) ->
  filters w1 = filters (scope_entry w) ->
  filters (snd (g args w1)) = filters (scope_entry w)
  /\ hd_error (filters (snd (g args w1))) = Some ignore_experimental
  /\ muted re_match (filters (snd (g args w1)))
  /\ (forall caller subject text stacklevel,
         fst (experimental_warning re_match caller subject text stacklevel
                (snd (g args w1)))
         = (if warnings.fits_ssize_t stacklevel
            then Return tt else Raise warnings.overflow_error)
         /\ shown (snd (experimental_warning re_match caller subject text stacklevel
                          (snd (g args w1))))
            = shown (snd (g args w1)))
  /\ (forall inner_body rest,
         experimental_shown
           (snd (exec re_match (CallQuiet (Then (CallQuiet inner_body) rest)) w))
         = experimental_shown w).
Proof.
  intros Hin Hw1.
  destruct (in_invocations_quiet inner g Hin) as [fn [_ ->]].
  assert (Hf : filters (snd (scoped_call suppress_experimental_warnings fn args w1))
               = filters (scope_entry w))
    by (rewrite scoped_call_run; exact Hw1).
  assert (Hm : muted re_match
                 (filters (snd (scoped_call suppress_experimental_warnings fn args w1))))
    by (rewrite Hf; apply muted_scope_entry).
  split; [exact Hf |].
  split; [rewrite Hf; reflexivity |].
  split; [exact Hm |].
  split.
  - intros caller subject text stacklevel.
    apply experimental_warning_muted, Hm.
  - intros inner_body rest. apply exec_quiet_silent.
Qed.

End Suppression.

(* ================================================================== *)
(** ** Instances *)
(* ================================================================== *)

(** The conflict of the docstring's example: both flags given. *)
Lemma normalize_renamed_param_conflict_witness :
  normalize_renamed_param (PyBool true) (PyStr "new_flag") (PyBool false) (PyStr "old_flag")
    (Function negate) bare_world
  = (Raise (CheckError
              ("Do not use deprecated " ++ dquote ++ "old_flag" ++ dquote
               ++ " now that you are using " ++ dquote ++ "new_flag" ++ dquote ++ ".")),
     bare_world).
Proof.
  apply (normalize_renamed_param_conflict (PyBool true) (PyBool false) "new_flag" "old_flag"
           (Function negate) bare_world); [discriminate | discriminate | reflexivity].
Defined.



(** C9, as stated, fails for a stack level beyond [ssize_t]: with every
    warning ignored, so that nothing is escalated, both functions raise
    OverflowError. *)
Lemma warning_functions_overflow_stacklevel :
  warnings.search_filters re_prefix (filters silent_world)
    (deprecation_message "Foo" "2.0" None) DeprecationWarning "__main__" 12 = ActIgnore
  /\ fst (deprecation_warning re_prefix user_caller "Foo" "2.0" None
            (warnings.PY_SSIZE_T_MAX + 1) silent_world)
     = Raise (OverflowError "Python int too large to convert to C ssize_t")
  /\ warnings.search_filters re_prefix (filters silent_world)
       (experimental_message "Baz" None) ExperimentalWarning "__main__" 12 = ActIgnore
  /\ fst (experimental_warning re_prefix user_caller "Baz" None
            (warnings.PY_SSIZE_T_MAX + 1) silent_world)
     = Raise (OverflowError "Python int too large to convert to C ssize_t").
Proof. repeat split. Qed.


Lemma normalize_renamed_param_new_only_witness :
  normalize_renamed_param (PyInt 7) (PyStr "new_flag") PyNone (PyStr "old_flag")
    (Plain PyNone) bare_world
  = (Return (PyInt 7), bare_world)
  /\ normalize_renamed_param PyNone (PyStr "new_flag") PyNone (PyStr "old_flag")
       (Plain PyNone) bare_world
     = (Return PyNone, bare_world).
Proof.
  apply (normalize_renamed_param_new_only (PyInt 7) "new_flag" "old_flag" (Plain PyNone) bare_world).
  reflexivity.
Defined.

(** A name that is a number, and no conflict between the values. *)
Lemma normalize_renamed_param_validates_witness :
  (exists param expected,
      normalize_renamed_param (PyInt 7) (PyInt 3) PyNone (PyStr "old_flag")
        (Plain PyNone) bare_world
      = (Raise (ParameterCheckError param expected), bare_world)
      /\ is_check_error (ParameterCheckError param expected) = true)
  /\ normalize_renamed_param (PyInt 7) (PyStr EmptyString) PyNone (PyStr EmptyString)
       (Plain PyNone) bare_world
     = (Return (PyInt 7), bare_world).
Proof.
  apply (normalize_renamed_param_validates (PyInt 7) (PyInt 3) PyNone (PyStr "old_flag")
           (Plain PyNone) bare_world).
  reflexivity.
Defined.

(** C7, as stated, fails for an empty additional text: the message shown is
    the bare sentence, not the sentence followed by a space. *)
Lemma deprecation_warning_empty_additional_text :
  shown (snd (deprecation_warning re_prefix user_caller "Foo" "2.0" (Some EmptyString) 3
                always_world))
  = [mkDiagnostic "Foo is deprecated and will be removed in 2.0." DeprecationWarning
       "pipeline.py" 12]
  /\ deprecation_warning re_prefix user_caller "Foo" "2.0" (Some EmptyString) 3 always_world
     <> warnings.warn re_prefix user_caller
          ("Foo is deprecated and will be removed in 2.0." ++ " " ++ EmptyString)
          DeprecationWarning 3 always_world.
Proof.
  split; [reflexivity |].
  vm_compute. intros H. discriminate H.
Qed.

(** A decorated function whose body raises after an experimental notice:
    the exception comes out and the filters are back. *)
Lemma quiet_experimental_warnings_restores_filters_witness :
  raised (fst (scoped_call suppress_experimental_warnings failing_function [] always_world)) = true
  /\ filters (snd (scoped_call suppress_experimental_warnings failing_function [] always_world))
     = filters always_world.
Proof.
  split; [reflexivity |].
  apply (quiet_experimental_warnings_restores_filters (DFunction failing_function)
           (scoped_call suppress_experimental_warnings failing_function) [] always_world).
  left. reflexivity.
Defined.


(** The method of a decorated class, called inside an outer scope. *)
Lemma nested_suppression_keeps_outer_scope_witness :
  hd_error
    (filters (snd (scoped_call suppress_experimental_warnings failing_function []
                     (scope_entry always_world))))
  = Some ignore_experimental.
Proof.
  apply (nested_suppression_keeps_outer_scope re_prefix sample_class
           (scoped_call suppress_experimental_warnings failing_function) []
           always_world (scope_entry always_world)).
  - left. reflexivity.
  - reflexivity.
Defined.

(** In a state whose filters already ignore [ExperimentalWarning], as after
    the call that [EXPERIMENTAL_WARNING_HELP] recommends, the undecorated
    body submits its notice and nothing is shown. *)
Remark undecorated_call_in_muted_state :
  submitted (snd (exec re_prefix failing_body muted_world))
  = [(experimental_message "Baz" None, ExperimentalWarning)]
  /\ shown (snd (exec re_prefix failing_body muted_world)) = [].
Proof. split; reflexivity. Qed.

(* ================================================================== *)
(** ** normalize_renamed_param: order of the checks and outcomes *)
(* ================================================================== *)

(** X1. The argument checks run in the order of lines 45-47 and the first
    one that fails decides the error: a bad [new_arg] is reported even when
    [old_arg] or the coercion is bad as well, a bad [old_arg] before a bad
    coercion. *)
Theorem normalize_renamed_param_first_failed_check
    (new_val new_arg old_val old_arg : pyval) (coerce_old_to_new : pyobj) (w : world) :
  isinstance_str new_arg && isinstance_str old_arg
  && (obj_is_none coerce_old_to_new || callable coerce_old_to_new) = false ->
  exists expected,
    normalize_renamed_param new_val new_arg old_val old_arg coerce_old_to_new w
    = (Raise (ParameterCheckError
                (if negb (isinstance_str new_arg) then "new_arg"
                 else if negb (isinstance_str old_arg) then "old_arg"
                 else "coerce_old_to_new")
                expected), w).
Proof.
  intros H.
  unfold normalize_renamed_param, check.str_param, check.opt_callable_param, bind, raise, ret.
  destruct (isinstance_str new_arg); simpl in *; [| eauto].
  destruct (isinstance_str old_arg); simpl in *; [| eauto].
  rewrite H. eauto.
Qed.

(** X2. Without a coercion the call fails exactly when both values are
    present, and it returns [None] exactly when both are absent: a value
    that was supplied is never lost. *)
Theorem normalize_renamed_param_outcomes
    (new_val old_val : pyval) (new_arg old_arg : string) (w : world) :
  raised (fst (normalize_renamed_param new_val (PyStr new_arg) old_val (PyStr old_arg)
                 (Plain PyNone) w))
  = negb (is_none new_val) && negb (is_none old_val)
  /\ (fst (normalize_renamed_param new_val (PyStr new_arg) old_val (PyStr old_arg)
             (Plain PyNone) w) = Return PyNone
      <-> new_val = PyNone /\ old_val = PyNone).
Proof.
  rewrite normalize_renamed_param_checked by reflexivity.
  destruct new_val, old_val; simpl; (split; [reflexivity |]);
    split; try (intros H; discriminate H); try (intros [H1 H2]; discriminate);
    try (intros _; split; reflexivity); try reflexivity.
Qed.

Lemma normalize_renamed_param_first_failed_check_witness :
  exists expected,
    normalize_renamed_param (PyInt 7) (PyInt 3) PyNone (PyBool true) (Plain (PyInt 0)) bare_world
    = (Raise (ParameterCheckError "new_arg" expected), bare_world).
Proof.
  apply (normalize_renamed_param_first_failed_check (PyInt 7) (PyInt 3) PyNone (PyBool true)
           (Plain (PyInt 0)) bare_world).
  reflexivity.
Defined.

Lemma normalize_renamed_param_falsy_callable_witness :
  normalize_renamed_param PyNone (PyStr "new_flag") (PyBool true) (PyStr "old_flag")
    falsy_negate bare_world
  = (Return (PyBool true), bare_world).
Proof.
  apply (normalize_renamed_param_falsy_callable (PyBool true) "new_flag" "old_flag" negate
           bare_world).
  discriminate.
Defined.

(* ================================================================== *)
(** ** The registries of warnings already shown *)
(* ================================================================== *)

Lemma lookup_store_registry (rs : list (nat * registry)) (g g' : nat) (r : registry) :
  warnings.lookup_registry (warnings.store_registry rs g r) g'
  = if Nat.eqb g' g then r else warnings.lookup_registry rs g'.
Proof.
  induction rs as [| [k r0] rs IH]; simpl.
  - destruct (Nat.eqb g' g); reflexivity.
  - destruct (Nat.eqb_spec g k) as [-> | Hgk]; simpl.
    + destruct (Nat.eqb g' k); reflexivity.
    + rewrite IH. destruct (Nat.eqb_spec g' k) as [-> | Hg'k].
      * destruct (Nat.eqb_spec k g); [congruence | reflexivity].
      * reflexivity.
Qed.

Lemma category_eqb_refl (c : category) : category_eqb c c = true.
Proof.
  induction c as [| | | | | n b IH]; simpl; try reflexivity.
  now rewrite String.eqb_refl, IH.
Qed.

Lemma regkey_eqb_refl (k : regkey) : regkey_eqb k k = true.
Proof.
  destruct k as [[t c] l]. simpl.
  rewrite String.eqb_refl, category_eqb_refl.
  destruct l as [l |]; simpl; [apply N.eqb_refl | reflexivity].
Qed.

Lemma has_key_add_key (k : regkey) (r : registry) :
  warnings.has_key k (warnings.add_key k r) = true.
Proof. unfold warnings.has_key, warnings.add_key. simpl. now rewrite regkey_eqb_refl. Qed.

Lemma category_eqb_eq (c1 c2 : category) : category_eqb c1 c2 = true -> c1 = c2.
Proof.
  revert c2. induction c1 as [| | | | | n1 b1 IH]; intros [| | | | | n2 b2]; simpl;
    try congruence.
  intros H. apply andb_true_iff in H. destruct H as [Hn Hb].
  apply String.eqb_eq in Hn. apply IH in Hb. now subst.
Qed.

Lemma action_eqb_eq (a b : action) : action_eqb a b = true -> a = b.
Proof. destruct a, b; simpl; congruence. Qed.

Lemma opt_string_eqb_eq (a b : option string) : opt_string_eqb a b = true -> a = b.
Proof.
  destruct a as [x |], b as [y |]; simpl; try congruence.
  intros H. apply String.eqb_eq in H. now subst.
Qed.

Lemma filter_eqb_eq (x y : filter) : filter_eqb x y = true -> x = y.
Proof.
  destruct x as [a1 m1 c1 o1 l1], y as [a2 m2 c2 o2 l2]. unfold filter_eqb. simpl.
  rewrite !andb_true_iff. intros [[[[Ha Hm] Hc] Ho] Hl].
  apply action_eqb_eq in Ha. apply opt_string_eqb_eq in Hm.
  apply category_eqb_eq in Hc. apply opt_string_eqb_eq in Ho.
  apply N.eqb_eq in Hl. now subst.
Qed.

Lemma filter_eqb_refl (x : filter) : filter_eqb x x = true.
Proof.
  destruct x as [a m c o l]. unfold filter_eqb. simpl.
  rewrite N.eqb_refl, category_eqb_refl.
  destruct a, m as [m |], o as [o |]; simpl; rewrite ?String.eqb_refl; reflexivity.
Qed.

Section RegistryFacts.

Variable re_match : bool -> string -> string -> bool.

(** After [warn_explicit] the registry of the frame's globals carries the
    current version; the others and the version counter are as before. *)
Lemma warn_explicit_registries (text : string) (cat : category) (fr : frame) (w : world) :
  exists r,
    registries (snd (warnings.warn_explicit re_match text cat fr w))
    = warnings.store_registry (registries w) (fr_globals fr) r
    /\ reg_version r = filters_version w.
Proof.
  unfold warnings.warn_explicit.
  destruct (Nat.eqb_spec
              (reg_version (warnings.lookup_registry (registries w) (fr_globals fr)))
              (filters_version w)) as [Hv | Hv];
    repeat match goal with
           | |- context [if ?b then _ else _] => destruct b eqn:?
           | |- context [match warnings.search_filters ?r ?f ?t ?c ?m ?l with _ => _ end] =>
               destruct (warnings.search_filters r f t c m l) eqn:?
           end; simpl; eexists; split; try reflexivity; simpl; auto.
Qed.

Lemma warn_registries_bounded (caller : Z -> frame) (text : string) (cat : category)
    (sl : Z) (w : world) :
  registries_bounded w ->
  registries_bounded (snd (warnings.warn re_match caller text cat sl w)).
Proof.
  intros Hb g. unfold warnings.warn.
  destruct (warnings.fits_ssize_t sl); [| exact (Hb g)].
  destruct (warn_explicit_registries text cat (caller sl) (submit text cat w)) as [r [Hr Hv]].
  rewrite Hr, lookup_store_registry.
  rewrite (proj2 (warn_explicit_filters re_match text cat (caller sl) (submit text cat w))).
  simpl in *. destruct (Nat.eqb g (fr_globals (caller sl))).
  - rewrite Hv. apply le_n.
  - apply Hb.
Qed.

Lemma scope_entry_bounded (w : world) :
  registries_bounded w -> registries_bounded (scope_entry w).
Proof. intros Hb g. specialize (Hb g). simpl in *. lia. Qed.

(** No body lets a registry run ahead of the version counter. *)
Lemma exec_registries_bounded (c : client) :
  forall w, registries_bounded w -> registries_bounded (snd (exec re_match c w)).
Proof.
  induction c as [| caller subject text sl | caller subject version text sl | e
                  | c1 IH1 c2 IH2 | c1 IH1 h IHh | body IH]; intros w Hb.
  - exact Hb.
  - simpl. unfold bind, experimental_warning.
    pose proof (warn_registries_bounded caller
                  (experimental_message subject text) ExperimentalWarning sl w Hb) as H.
    destruct (warnings.warn _ _ _ _ _ w) as [[u | e] w1]; exact H.
  - simpl. unfold bind, deprecation_warning.
    pose proof (warn_registries_bounded caller
                  (deprecation_message subject version text) DeprecationWarning sl w Hb) as H.
    destruct (warnings.warn _ _ _ _ _ w) as [[u | e] w1]; exact H.
  - exact Hb.
  - simpl. unfold bind. specialize (IH1 w Hb).
    destruct (exec re_match c1 w) as [[v | e] w1]; simpl in *; auto.
  - simpl. unfold try_except. specialize (IH1 w Hb).
    destruct (exec re_match c1 w) as [[v | e] w1]; simpl in *; auto.
  - rewrite exec_call_quiet. simpl.
    specialize (IH (scope_entry w) (scope_entry_bounded w Hb)).
    intros g. specialize (IH g). simpl in *. lia.
Qed.

(** After a decorated call every registry is behind the version counter. *)
Lemma exec_call_quiet_stale (body : client) (w : world) (g : nat) :
  registries_bounded w ->
  reg_version (warnings.lookup_registry (registries (snd (exec re_match (CallQuiet body) w))) g)
  < filters_version (snd (exec re_match (CallQuiet body) w)).
Proof.
  intros Hb. rewrite exec_call_quiet. simpl.
  pose proof (exec_registries_bounded body (scope_entry w) (scope_entry_bounded w Hb) g) as H.
  simpl in *. lia.
Qed.

End RegistryFacts.

(* ================================================================== *)
(** ** What the suppression scope leaves alone, and what it changes *)
(* ================================================================== *)

Section ScopeFacts.

Variable re_match : bool -> string -> string -> bool.

Lemma ignore_experimental_skips (text : string) (cat : category) (module : string) (lineno : N) :
  issubclass cat ExperimentalWarning = false ->
  warnings.filter_matches re_match ignore_experimental text cat module lineno = false.
Proof.
  intros H. unfold warnings.filter_matches. simpl. now rewrite H.
Qed.

Lemma ignore_experimental_catches (text : string) (cat : category) (module : string) (lineno : N) :
  issubclass cat ExperimentalWarning = true ->
  warnings.filter_matches re_match ignore_experimental text cat module lineno = true.
Proof.
  intros H. unfold warnings.filter_matches. simpl. now rewrite H.
Qed.

Lemma search_filters_remove_first (fs : list filter) (text : string) (cat : category)
    (module : string) (lineno : N) :
  issubclass cat ExperimentalWarning = false ->
  warnings.search_filters re_match (warnings.remove_first ignore_experimental fs)
    text cat module lineno
  = warnings.search_filters re_match fs text cat module lineno.
Proof.
  intros H. induction fs as [| f fs IH]; simpl; [reflexivity |].
  destruct (filter_eqb f ignore_experimental) eqn:E.
  - apply filter_eqb_eq in E. subst f.
    now rewrite (ignore_experimental_skips text cat module lineno H).
  - simpl. now rewrite IH.
Qed.

Lemma search_filters_scope_entry
    (w : world) (text : string) (cat : category) (module : string) (lineno : N) :
  issubclass cat ExperimentalWarning = false ->
  warnings.search_filters re_match (filters (scope_entry w)) text cat module lineno
  = warnings.search_filters re_match (filters w) text cat module lineno.
Proof.
  intros H. rewrite scope_entry_filters. simpl.
  rewrite (ignore_experimental_skips text cat module lineno H).
  apply search_filters_remove_first, H.
Qed.

(** X4. The scope mutes [ExperimentalWarning] and the classes derived from
    it, and nothing else: for a warning of such a category the filters
    inside the scope say "ignore"; for a warning of any category that is not
    a subclass of [ExperimentalWarning] they decide inside the scope as they
    decide outside it. *)
Theorem suppression_scope_mutes_experimental_only
    (w : world) (text : string) (cat : category) (module : string) (lineno : N) :
  warnings.search_filters re_match (filters (scope_entry w)) text cat module lineno
  = (if issubclass cat ExperimentalWarning then ActIgnore
     else warnings.search_filters re_match (filters w) text cat module lineno).
Proof.
  destruct (issubclass cat ExperimentalWarning) eqn:H.
  - rewrite scope_entry_filters. simpl.
    now rewrite (ignore_experimental_catches text cat module lineno H).
  - apply search_filters_scope_entry, H.
Qed.

(** What [warnings.warn] does when the registry of the frame is behind the
    version counter: the registry is emptied and the filters decide. *)
Lemma warn_stale_registry (caller : Z -> frame) (text : string) (cat : category)
    (sl : Z) (w : world) :
  warnings.fits_ssize_t sl = true ->
  reg_version (warnings.lookup_registry (registries w) (fr_globals (caller sl)))
  <> filters_version w ->
  match warnings.search_filters re_match (filters w) text cat
          (fr_module (caller sl)) (fr_lineno (caller sl)) with
  | ActDefault | ActAlways =>
      fst (warnings.warn re_match caller text cat sl w) = Return tt
      /\ shown (snd (warnings.warn re_match caller text cat sl w))
         = (shown w
            ++ [mkDiagnostic text cat (fr_filename (caller sl)) (fr_lineno (caller sl))])%list
  | ActError =>
      fst (warnings.warn re_match caller text cat sl w) = Raise (WarningAsError cat text)
      /\ shown (snd (warnings.warn re_match caller text cat sl w)) = shown w
  | _ => True
  end.
Proof.
  intros Hfit Hv. rewrite (warn_fits re_match caller text cat sl w Hfit).
  unfold warnings.warn_explicit. simpl.
  destruct (Nat.eqb_spec
              (reg_version (warnings.lookup_registry (registries w) (fr_globals (caller sl))))
              (filters_version w)) as [E | _]; [contradiction |].
  simpl.
  destruct (warnings.search_filters re_match (filters w) text cat
              (fr_module (caller sl)) (fr_lineno (caller sl)));
    simpl; auto.
Qed.

(** Under the default action a warning leaves its key in the registry of the
    frame, at the current version. *)
Lemma warn_default_registers (caller : Z -> frame) (text : string) (cat : category)
    (sl : Z) (w : world) :
  warnings.fits_ssize_t sl = true ->
  warnings.search_filters re_match (filters w) text cat
    (fr_module (caller sl)) (fr_lineno (caller sl)) = ActDefault ->
  fst (warnings.warn re_match caller text cat sl w) = Return tt
  /\ warnings.has_key (text, cat, Some (fr_lineno (caller sl)))
       (warnings.lookup_registry
          (registries (snd (warnings.warn re_match caller text cat sl w)))
          (fr_globals (caller sl))) = true
  /\ reg_version
       (warnings.lookup_registry
          (registries (snd (warnings.warn re_match caller text cat sl w)))
          (fr_globals (caller sl)))
     = filters_version w.
Proof.
  intros Hfit Hs. rewrite (warn_fits re_match caller text cat sl w Hfit).
  unfold warnings.warn_explicit. simpl. rewrite Hs.
  destruct (Nat.eqb_spec
              (reg_version (warnings.lookup_registry (registries w) (fr_globals (caller sl))))
              (filters_version w)) as [E | E].
  - destruct (warnings.has_key _ _) eqn:K; simpl;
      rewrite lookup_store_registry, Nat.eqb_refl.
    + auto.
    + split; [reflexivity |]. split; [apply has_key_add_key | exact E].
  - simpl. rewrite lookup_store_registry, Nat.eqb_refl.
    split; [reflexivity |]. split; [apply has_key_add_key | reflexivity].
Qed.

(** A warning whose key is in an up-to-date registry is dropped before the
    filters are looked at. *)
Lemma warn_registered (caller : Z -> frame) (text : string) (cat : category)
    (sl : Z) (w : world) :
  warnings.fits_ssize_t sl = true ->
  warnings.has_key (text, cat, Some (fr_lineno (caller sl)))
    (warnings.lookup_registry (registries w) (fr_globals (caller sl))) = true ->
  reg_version (warnings.lookup_registry (registries w) (fr_globals (caller sl)))
  = filters_version w ->
  fst (warnings.warn re_match caller text cat sl w) = Return tt
  /\ shown (snd (warnings.warn re_match caller text cat sl w)) = shown w.
Proof.
  intros Hfit Hk Hv. rewrite (warn_fits re_match caller text cat sl w Hfit).
  unfold warnings.warn_explicit. simpl.
  rewrite Hv, Nat.eqb_refl, Hk. split; reflexivity.
Qed.

End ScopeFacts.

(* ================================================================== *)
(** ** Decorated calls under the other policies of the channel *)
(* ================================================================== *)

Section DecoratedCalls.

Variable re_match : bool -> string -> string -> bool.

Lemma scope_entry_stale (w : world) (g : nat) :
  registries_bounded w ->
  reg_version (warnings.lookup_registry (registries (scope_entry w)) g)
  <> filters_version (scope_entry w).
Proof. intros Hb. specialize (Hb g). simpl in *. lia. Qed.

Lemma exec_deprecation_overflow (caller : Z -> frame) (subject version : string)
    (text : option string) (sl : Z) (rest : client) (w : world) :
  warnings.fits_ssize_t sl = false ->
  exec re_match (Then (CallDeprecation caller subject version text sl) rest) w
  = (Raise warnings.overflow_error,
     submit (deprecation_message subject version text) DeprecationWarning w).
Proof.
  intros H. simpl. unfold bind, deprecation_warning.
  now rewrite (warn_overflow re_match caller _ DeprecationWarning sl w H).
Qed.

(** X5. A deprecation notice at the start of a decorated call is not muted
    by the decorator: when the filters of the caller show deprecation
    warnings (action "always" or "default"), it reaches the sink.  (With a
    stack level that [warnings.warn] refuses nothing is shown, as outside
    the decorator.) *)
Theorem quiet_experimental_warnings_shows_deprecation
    (caller : Z -> frame) (subject breaking_version : string)
    (additional_warn_text : option string) (stacklevel : Z) (rest : client) (w : world) :
  registries_bounded w ->
  warnings.search_filters re_match (filters w)
    (deprecation_message subject breaking_version additional_warn_text) DeprecationWarning
    (fr_module (caller stacklevel)) (fr_lineno (caller stacklevel)) = ActAlways
  \/ warnings.search_filters re_match (filters w)
       (deprecation_message subject breaking_version additional_warn_text) DeprecationWarning
       (fr_module (caller stacklevel)) (fr_lineno (caller stacklevel)) = ActDefault ->
  if warnings.fits_ssize_t stacklevel
  then
    exists later,
      shown (snd (exec re_match
                    (CallQuiet
                       (Then (CallDeprecation caller subject breaking_version
                                additional_warn_text stacklevel) rest)) w))
      = (shown w
         ++ mkDiagnostic (deprecation_message subject breaking_version additional_warn_text)
              DeprecationWarning (fr_filename (caller stacklevel))
              (fr_lineno (caller stacklevel))
            :: later)%list
  else
    shown (snd (exec re_match
                  (CallQuiet
                     (Then (CallDeprecation caller subject breaking_version
                              additional_warn_text stacklevel) rest)) w))
    = shown w.
Proof.
  intros Hb Hs. destruct (warnings.fits_ssize_t stacklevel) eqn:Hfit.
  2:{ rewrite exec_call_quiet. cbn [snd].
      rewrite (exec_deprecation_overflow caller subject breaking_version
                 additional_warn_text stacklevel rest (scope_entry w) Hfit).
      reflexivity. }
  rewrite exec_call_quiet. simpl.
  pose proof (warn_stale_registry re_match caller
                (deprecation_message subject breaking_version additional_warn_text)
                DeprecationWarning stacklevel (scope_entry w) Hfit
                (scope_entry_stale w _ Hb)) as Hw.
  rewrite search_filters_scope_entry in Hw by reflexivity.
  assert (Hshow :
            fst (deprecation_warning re_match caller subject breaking_version
                   additional_warn_text stacklevel (scope_entry w)) = Return tt
            /\ shown (snd (deprecation_warning re_match caller subject breaking_version
                             additional_warn_text stacklevel (scope_entry w)))
               = (shown w
                  ++ [mkDiagnostic
                        (deprecation_message subject breaking_version additional_warn_text)
                        DeprecationWarning (fr_filename (caller stacklevel))
                        (fr_lineno (caller stacklevel))])%list).
  { unfold deprecation_warning. destruct Hs as [Hs | Hs]; rewrite Hs in Hw; exact Hw. }
  destruct Hshow as [Hr Hsh]. unfold bind.
  destruct (deprecation_warning re_match caller subject breaking_version
              additional_warn_text stacklevel (scope_entry w)) as [[u | e] w1];
    simpl in *; [| discriminate].
  destruct (exec_shown_grows re_match rest w1) as [l Hl].
  exists l. rewrite Hl, Hsh, <- app_assoc. reflexivity.
Qed.

(** X6. Nor does the decorator swallow an escalation: when the filters of
    the caller turn deprecation warnings into errors, a deprecation notice at
    the start of a decorated call raises that warning out of the call, the
    rest of the body is not run, and the filters are back.  (With a stack
    level that [warnings.warn] refuses, what comes out is its
    OverflowError.) *)
Theorem quiet_experimental_warnings_raises_deprecation
    (caller : Z -> frame) (subject breaking_version : string)
    (additional_warn_text : option string) (stacklevel : Z) (rest : client) (w : world) :
  registries_bounded w ->
  warnings.search_filters re_match (filters w)
    (deprecation_message subject breaking_version additional_warn_text) DeprecationWarning
    (fr_module (caller stacklevel)) (fr_lineno (caller stacklevel)) = ActError ->
  fst (exec re_match
         (CallQuiet
            (Then (CallDeprecation caller subject breaking_version
                     additional_warn_text stacklevel) rest)) w)
  = Raise (if warnings.fits_ssize_t stacklevel
           then WarningAsError DeprecationWarning
                  (deprecation_message subject breaking_version additional_warn_text)
           else warnings.overflow_error)
  /\ submitted (snd (exec re_match
                       (CallQuiet
                          (Then (CallDeprecation caller subject breaking_version
                                   additional_warn_text stacklevel) rest)) w))
     = (submitted w
        ++ [(deprecation_message subject breaking_version additional_warn_text,
             DeprecationWarning)])%list
  /\ filters (snd (exec re_match
                     (CallQuiet
                        (Then (CallDeprecation caller subject breaking_version
                                 additional_warn_text stacklevel) rest)) w))
     = filters w.
Proof.
  intros Hb Hs. split; [| split; [| apply exec_filters]].
  - rewrite exec_call_quiet. cbn [fst].
    destruct (warnings.fits_ssize_t stacklevel) eqn:Hfit.
    2:{ now rewrite (exec_deprecation_overflow caller subject breaking_version
                       additional_warn_text stacklevel rest (scope_entry w) Hfit). }
    simpl.
    pose proof (warn_stale_registry re_match caller
                  (deprecation_message subject breaking_version additional_warn_text)
                  DeprecationWarning stacklevel (scope_entry w) Hfit
                  (scope_entry_stale w _ Hb)) as Hw.
    rewrite search_filters_scope_entry in Hw by reflexivity.
    rewrite Hs in Hw. destruct Hw as [Hr _]. unfold bind, deprecation_warning.
    destruct (warnings.warn re_match caller _ DeprecationWarning stacklevel (scope_entry w))
      as [[u | e] w1]; simpl in *; [discriminate | now inversion Hr].
  - rewrite exec_call_quiet. cbn [snd].
    destruct (warnings.fits_ssize_t stacklevel) eqn:Hfit.
    2:{ now rewrite (exec_deprecation_overflow caller subject breaking_version
                       additional_warn_text stacklevel rest (scope_entry w) Hfit). }
    simpl.
    pose proof (warn_stale_registry re_match caller
                  (deprecation_message subject breaking_version additional_warn_text)
                  DeprecationWarning stacklevel (scope_entry w) Hfit
                  (scope_entry_stale w _ Hb)) as Hw.
    rewrite search_filters_scope_entry in Hw by reflexivity.
    rewrite Hs in Hw. destruct Hw as [Hr _].
    pose proof (warn_submitted re_match caller
                  (deprecation_message subject breaking_version additional_warn_text)
                  DeprecationWarning stacklevel (scope_entry w)) as Hsub.
    unfold bind, deprecation_warning.
    destruct (warnings.warn re_match caller _ DeprecationWarning stacklevel (scope_entry w))
      as [[u | e] w1]; simpl in *; [discriminate | exact Hsub].
Qed.

(** In a muted state a body of experimental notices returns. *)
Lemma exec_notices_only_returns (c : client) :
  forall w, muted re_match (filters w) -> notices_only c = true ->
            fst (exec re_match c w) = Return PyNone.
Proof.
  induction c as [| caller subject text sl | caller subject version text sl | e
                  | c1 IH1 c2 IH2 | c1 IH1 h IHh | body IH]; intros w Hm Hn;
    cbn [notices_only] in Hn; try discriminate.
  - reflexivity.
  - simpl. unfold bind.
    destruct (experimental_warning_muted re_match caller subject text sl w Hm) as [Hr _].
    rewrite Hn in Hr.
    destruct (experimental_warning re_match caller subject text sl w) as [[u | e] w1];
      simpl in *; [reflexivity | discriminate].
  - apply andb_true_iff in Hn. destruct Hn as [Hn1 Hn2].
    simpl. unfold bind.
    pose proof (IH1 w Hm Hn1) as H1. pose proof (exec_filters re_match c1 w) as F1.
    destruct (exec re_match c1 w) as [[v | e] w1]; simpl in *; [| discriminate].
    apply IH2; [now rewrite F1 | exact Hn2].
  - apply andb_true_iff in Hn. destruct Hn as [Hn1 Hn2].
    simpl. unfold try_except.
    pose proof (IH1 w Hm Hn1) as H1.
    destruct (exec re_match c1 w) as [[v | e] w1]; simpl in *; [exact H1 | discriminate].
  - rewrite exec_call_quiet. simpl.
    apply IH; [apply muted_scope_entry | exact Hn].
Qed.

(** X7. The decorator also shields from escalation: a decorated function
    whose body deals with the channel through experimental notices only,
    each with a stack level that [warnings.warn] accepts, returns in every
    state, also one whose filters turn experimental warnings into errors,
    and shows nothing. *)
Theorem quiet_experimental_warnings_never_escalates (body : client) (w : world) :
  notices_only body = true ->
  fst (exec re_match (CallQuiet body) w) = Return PyNone
  /\ shown (snd (exec re_match (CallQuiet body) w)) = shown w.
Proof.
  intros Hn. split.
  - rewrite exec_call_quiet. simpl.
    apply exec_notices_only_returns; [apply muted_scope_entry | exact Hn].
  - rewrite exec_call_quiet. simpl.
    assert (H : forall c w0, muted re_match (filters w0) -> notices_only c = true ->
                             shown (snd (exec re_match c w0)) = shown w0).
    { clear. induction c as [| caller subject text sl | caller subject version text sl | e
                             | c1 IH1 c2 IH2 | c1 IH1 h IHh | inner IH]; intros w0 Hm Hn;
        cbn [notices_only] in Hn; try discriminate.
      - reflexivity.
      - simpl. unfold bind.
        destruct (experimental_warning_muted re_match caller subject text sl w0 Hm) as [_ Hs].
        destruct (experimental_warning re_match caller subject text sl w0) as [[u | e] w1];
          exact Hs.
      - apply andb_true_iff in Hn. destruct Hn as [Hn1 Hn2].
        simpl. unfold bind.
        pose proof (IH1 w0 Hm Hn1) as H1. pose proof (exec_filters re_match c1 w0) as F1.
        destruct (exec re_match c1 w0) as [[v | e] w1]; simpl in *; [| exact H1].
        rewrite IH2; [exact H1 | now rewrite F1 | exact Hn2].
      - apply andb_true_iff in Hn. destruct Hn as [Hn1 Hn2].
        simpl. unfold try_except.
        pose proof (IH1 w0 Hm Hn1) as H1. pose proof (exec_filters re_match c1 w0) as F1.
        destruct (exec re_match c1 w0) as [[v | e] w1]; simpl in *; [exact H1 |].
        rewrite IHh; [exact H1 | now rewrite F1 | exact Hn2].
      - rewrite exec_call_quiet. simpl.
        rewrite IH; [reflexivity | apply muted_scope_entry | exact Hn]. }
    rewrite H; [reflexivity | apply muted_scope_entry | exact Hn].
Qed.

End DecoratedCalls.

(* ================================================================== *)
(** ** The scope and the memory of warnings already shown *)
(* ================================================================== *)

Section Rearming.

Variable re_match : bool -> string -> string -> bool.

Lemma exec_then_returns (c1 c2 : client) (w w1 : world) (v : pyval) :
  exec re_match c1 w = (Return v, w1) ->
  exec re_match (Then c1 c2) w = exec re_match c2 w1.
Proof. intros H. simpl. unfold bind. now rewrite H. Qed.

(** [try: c  except: pass] ends in the state in which [c] ended. *)
Lemma exec_try_pass (c : client) (w : world) :
  exists v, exec re_match (TryExcept c Pass) w = (Return v, snd (exec re_match c w)).
Proof.
  simpl. unfold try_except, ret.
  destruct (exec re_match c w) as [[v | e] w1]; simpl; eauto.
Qed.

Lemma exec_notice_returns (caller : Z -> frame) (subject : string) (text : option string)
    (sl : Z) (w : world) :
  fst (warnings.warn re_match caller (experimental_message subject text)
         ExperimentalWarning sl w) = Return tt ->
  exec re_match (CallExperimental caller subject text sl) w
  = (Return PyNone,
     snd (warnings.warn re_match caller (experimental_message subject text)
            ExperimentalWarning sl w)).
Proof.
  intros H. simpl. unfold bind, experimental_warning.
  destruct (warnings.warn _ _ _ _ _ w) as [[u | e] w1]; simpl in *;
    [reflexivity | discriminate].
Qed.

Lemma warn_filters_version (caller : Z -> frame) (text : string) (cat : category)
    (sl : Z) (w : world) :
  filters_version (snd (warnings.warn re_match caller text cat sl w)) = filters_version w.
Proof.
  unfold warnings.warn. destruct (warnings.fits_ssize_t sl); [| reflexivity].
  exact (proj2 (warn_explicit_filters re_match text cat (caller sl) (submit text cat w))).
Qed.

Lemma exec_then_raises (c1 c2 : client) (w w1 : world) (e : exn) :
  exec re_match c1 w = (Raise e, w1) ->
  exec re_match (Then c1 c2) w = (Raise e, w1).
Proof. intros H. simpl. unfold bind. now rewrite H. Qed.

Lemma exec_notice_overflow (caller : Z -> frame) (subject : string) (text : option string)
    (sl : Z) (w : world) :
  warnings.fits_ssize_t sl = false ->
  exec re_match (CallExperimental caller subject text sl) w
  = (Raise warnings.overflow_error,
     submit (experimental_message subject text) ExperimentalWarning w).
Proof.
  intros H. simpl. unfold bind, experimental_warning.
  now rewrite (warn_overflow re_match caller _ ExperimentalWarning sl w H).
Qed.

(** X8. Under the default action an experimental notice is shown once per
    location: triggered twice in a row, the second is dropped.  A decorated
    call in between makes the channel forget that: entering and leaving the
    scope advance the version of the filters, the registries are emptied at
    the next warning, and the same notice is shown again.  (A notice whose
    stack level [warnings.warn] refuses is never shown, so nothing is
    added then.) *)
Theorem decorated_call_rearms_default_warnings
    (caller : Z -> frame) (subject : string) (text : option string) (stacklevel : Z)
    (body : client) (w : world) :
  registries_bounded w ->
  warnings.search_filters re_match (filters w) (experimental_message subject text)
    ExperimentalWarning (fr_module (caller stacklevel)) (fr_lineno (caller stacklevel))
  = ActDefault ->
  experimental_shown
    (snd (exec re_match
            (Then (CallExperimental caller subject text stacklevel)
                  (CallExperimental caller subject text stacklevel)) w))
  = experimental_shown (snd (exec re_match (CallExperimental caller subject text stacklevel) w))
  /\ experimental_shown
       (snd (exec re_match
               (Then (CallExperimental caller subject text stacklevel)
                     (Then (TryExcept (CallQuiet body) Pass)
                           (CallExperimental caller subject text stacklevel))) w))
     = (experimental_shown
          (snd (exec re_match (CallExperimental caller subject text stacklevel) w))
        ++ (if warnings.fits_ssize_t stacklevel
            then [mkDiagnostic (experimental_message subject text) ExperimentalWarning
                    (fr_filename (caller stacklevel)) (fr_lineno (caller stacklevel))]
            else []))%list.
Proof.
  intros Hb Hs. destruct (warnings.fits_ssize_t stacklevel) eqn:Hfit.
  2:{ pose proof (exec_notice_overflow caller subject text stacklevel w Hfit) as E.
      rewrite !(exec_then_raises _ _ w _ _ E), E. cbn [snd].
      split; [reflexivity | now rewrite app_nil_r]. }
  destruct (warn_default_registers re_match caller (experimental_message subject text)
              ExperimentalWarning stacklevel w Hfit Hs) as [Hr [Hk Hv]].
  pose proof (warn_filters re_match caller (experimental_message subject text)
                ExperimentalWarning stacklevel w) as Hf.
  pose proof (warn_filters_version caller (experimental_message subject text)
                ExperimentalWarning stacklevel w) as Hfv.
  pose proof (warn_registries_bounded re_match caller (experimental_message subject text)
                ExperimentalWarning stacklevel w Hb) as Hb1.
  pose proof (exec_notice_returns caller subject text stacklevel w Hr) as E1.
  set (w1 := snd (warnings.warn re_match caller (experimental_message subject text)
                    ExperimentalWarning stacklevel w)) in *.
  rewrite !(exec_then_returns _ _ w w1 PyNone E1), E1. cbn [snd]. split.
  - rewrite <- Hfv in Hv.
    destruct (warn_registered re_match caller (experimental_message subject text)
                ExperimentalWarning stacklevel w1 Hfit Hk Hv) as [Hr2 Hs2].
    rewrite (exec_notice_returns caller subject text stacklevel w1 Hr2). cbn [snd].
    unfold experimental_shown. now rewrite Hs2.
  - destruct (exec_try_pass (CallQuiet body) w1) as [v E2].
    rewrite (exec_then_returns _ _ w1 _ v E2).
    pose proof (exec_call_quiet_stale re_match body w1 (fr_globals (caller stacklevel)) Hb1)
      as Hstale.
    pose proof (exec_filters re_match (CallQuiet body) w1) as Hf2.
    pose proof (exec_quiet_silent re_match body w1) as Hsil.
    set (w2 := snd (exec re_match (CallQuiet body) w1)) in *.
    assert (Hne : reg_version (warnings.lookup_registry (registries w2)
                                 (fr_globals (caller stacklevel))) <> filters_version w2)
      by lia.
    pose proof (warn_stale_registry re_match caller (experimental_message subject text)
                  ExperimentalWarning stacklevel w2 Hfit Hne) as Hw.
    rewrite Hf2, Hf, Hs in Hw. destruct Hw as [Hr3 Hs3].
    rewrite (exec_notice_returns caller subject text stacklevel w2 Hr3). cbn [snd].
    rewrite (experimental_shown_app w2 _ _ Hs3), Hsil. reflexivity.
Qed.

Lemma remove_first_length (x : filter) (fs : list filter) :
  List.length (warnings.remove_first x fs)
  = if existsb (fun f => filter_eqb f x) fs then pred (List.length fs) else List.length fs.
Proof.
  induction fs as [| f fs IH]; simpl; [reflexivity |].
  destruct (filter_eqb f x); simpl; [reflexivity |].
  rewrite IH. destruct (existsb (fun f0 => filter_eqb f0 x) fs) eqn:E; [| reflexivity].
  destruct fs; [discriminate | reflexivity].
Qed.

(** X9. Nesting does not pile up filters.  The block of a scope sees the
    "ignore" filter first and the caller's other filters after it in their
    order; an equal filter that was already installed is moved to the front,
    not installed twice, so the block of a scope entered inside another one
    sees the very list of the outer block. *)
Theorem nested_scope_adds_no_filter (w : world) :
  fst (suppress_experimental_warnings _ current_filters w)
  = Return (ignore_experimental :: warnings.remove_first ignore_experimental (filters w))
  /\ fst (suppress_experimental_warnings _
            (suppress_experimental_warnings _ current_filters) w)
     = fst (suppress_experimental_warnings _ current_filters w)
  /\ List.length (ignore_experimental :: warnings.remove_first ignore_experimental (filters w))
     = (if existsb (fun f => filter_eqb f ignore_experimental) (filters w)
        then List.length (filters w) else S (List.length (filters w))).
Proof.
  split; [| split].
  - rewrite suppress_experimental_warnings_run. reflexivity.
  - rewrite !suppress_experimental_warnings_run. reflexivity.
  - simpl. rewrite remove_first_length.
    destruct (existsb (fun f => filter_eqb f ignore_experimental) (filters w)) eqn:E;
      [| reflexivity].
    destruct (filters w); [discriminate | reflexivity].
Qed.

End Rearming.

(* ================================================================== *)
(** ** Instances of the properties of the scope *)
(* ================================================================== *)

Lemma bare_world_bounded : registries_bounded bare_world.
Proof. intros g. simpl. lia. Defined.

Lemma always_world_bounded : registries_bounded always_world.
Proof. intros g. simpl. lia. Defined.

Lemma error_world_bounded : registries_bounded error_world.
Proof. intros g. simpl. lia. Defined.

(** With every warning turned into an error by the caller: inside the scope
    a class derived from [ExperimentalWarning] is ignored, and a deprecation
    warning is still an error. *)
Lemma suppression_scope_mutes_experimental_only_witness :
  warnings.search_filters re_prefix (filters (scope_entry error_world))
    "Beta API" (Derived "BetaWarning" ExperimentalWarning) "__main__" 12
  = ActIgnore
  /\ warnings.search_filters re_prefix (filters (scope_entry error_world))
       "Foo is deprecated and will be removed in 2.0." DeprecationWarning "__main__" 12
     = ActError.
Proof.
  split; rewrite suppression_scope_mutes_experimental_only; reflexivity.
Defined.

Lemma quiet_experimental_warnings_shows_deprecation_witness :
  exists later,
    shown (snd (exec re_prefix (CallQuiet deprecating_body) always_world))
    = mkDiagnostic "Foo is deprecated and will be removed in 2.0." DeprecationWarning
        "pipeline.py" 12 :: later.
Proof.
  apply (quiet_experimental_warnings_shows_deprecation re_prefix user_caller "Foo" "2.0" None
           default_stacklevel (CallExperimental user_caller "Baz" None default_stacklevel)
           always_world).
  - exact always_world_bounded.
  - left. reflexivity.
Defined.

Lemma quiet_experimental_warnings_raises_deprecation_witness :
  fst (exec re_prefix (CallQuiet deprecating_body) error_world)
  = Raise (WarningAsError DeprecationWarning "Foo is deprecated and will be removed in 2.0.").
Proof.
  apply (quiet_experimental_warnings_raises_deprecation re_prefix user_caller "Foo" "2.0" None
           default_stacklevel (CallExperimental user_caller "Baz" None default_stacklevel)
           error_world).
  - exact error_world_bounded.
  - reflexivity.
Defined.

(** With experimental warnings escalated to errors the body raises when
    called directly and returns when called through the decorator. *)
Lemma quiet_experimental_warnings_never_escalates_witness :
  raised (fst (exec re_prefix noticing_body error_world)) = true
  /\ fst (exec re_prefix (CallQuiet noticing_body) error_world) = Return PyNone.
Proof.
  split; [reflexivity |].
  apply (quiet_experimental_warnings_never_escalates re_prefix noticing_body error_world).
  reflexivity.
Defined.

(** With no filter installed: one notice shown for two in a row, two when a
    decorated call comes in between. *)
Lemma decorated_call_rearms_default_warnings_witness :
  List.length
    (experimental_shown
       (snd (exec re_prefix
               (Then (CallExperimental user_caller "Baz" None default_stacklevel)
                     (CallExperimental user_caller "Baz" None default_stacklevel))
               bare_world))) = 1
  /\ experimental_shown
       (snd (exec re_prefix
               (Then (CallExperimental user_caller "Baz" None default_stacklevel)
                     (Then (TryExcept (CallQuiet failing_body) Pass)
                           (CallExperimental user_caller "Baz" None default_stacklevel)))
               bare_world))
     = [mkDiagnostic (experimental_message "Baz" None) ExperimentalWarning "pipeline.py" 12;
        mkDiagnostic (experimental_message "Baz" None) ExperimentalWarning "pipeline.py" 12].
Proof.
  destruct (decorated_call_rearms_default_warnings re_prefix user_caller "Baz" None
              default_stacklevel failing_body bare_world bare_world_bounded)
    as [Hrow Hbetween]; [reflexivity |].
  split.
  - rewrite Hrow. reflexivity.
  - rewrite Hbetween. reflexivity.
Defined.

(* ================================================================== *)
(** ** Failures of the body, and the advice of the help text *)
(* ================================================================== *)

Section Passthrough.

Variable re_match : bool -> string -> string -> bool.

(** X10. The decorator does not swallow the failure of the function it
    wraps: a body that raises [e] after experimental notices (each with a
    stack level that [warnings.warn] accepts) raises the same [e] out of the
    decorated call in every state; the notices before it are muted all the
    same and the filters are back. *)
Theorem quiet_experimental_warnings_propagates_failure
    (before : client) (e : exn) (w : world) :
  notices_only before = true ->
  fst (exec re_match (CallQuiet (Then before (RaiseExn e))) w) = Raise e
  /\ experimental_shown (snd (exec re_match (CallQuiet (Then before (RaiseExn e))) w))
     = experimental_shown w
  /\ filters (snd (exec re_match (CallQuiet (Then before (RaiseExn e))) w)) = filters w.
Proof.
  intros Hn. split; [| split; [apply exec_quiet_silent | apply exec_filters]].
  rewrite exec_call_quiet. cbn [fst].
  pose proof (exec_notices_only_returns re_match before (scope_entry w)
                (muted_scope_entry re_match w) Hn) as Hr.
  simpl. unfold bind, raise.
  destruct (exec re_match before (scope_entry w)) as [[v | e'] w1]; simpl in *;
    [reflexivity | discriminate].
Qed.


End Passthrough.

(** The body of the examples: a notice, then a RuntimeError. *)
Lemma quiet_experimental_warnings_propagates_failure_witness :
  fst (exec re_prefix (CallQuiet failing_body) error_world)
  = Raise (OtherError "RuntimeError" "boom").
Proof.
  apply (quiet_experimental_warnings_propagates_failure re_prefix
           (CallExperimental user_caller "Baz" None default_stacklevel)
           (OtherError "RuntimeError" "boom") error_world).
  reflexivity.
Defined.
